(** * The two-axis bar and line visual (twoYaxis/src/visual.ts)

    A shallow embedding of the [Visual] class: the view model built by
    [setViewModel] from the host's data view, and the drawing done by
    [update] on the retained SVG groups.

    Numbers.  A JavaScript number is modelled as [JS.NaN] or a finite
    exact rational ([Qc]); rounding of binary floating point and the two
    infinities are outside the model.  The only quotient of the program
    that can have a zero divisor (the linear scale over a domain of
    width zero) is written out the way d3 computes it.

    Exceptions.  Reading a property of [undefined] raises a [TypeError];
    a method is a function from the instance to a completion that
    carries the instance as it is when the method returns or throws.

    d3.  The library is not part of the repository.  [D3] models the
    calls the visual makes after d3 version 3: [d3.max], the linear and
    the ordinal scale, and the data join by index.  The calls are total,
    and what [selection.call(axis)] leaves in a group is determined by
    the settings of the axis generator. *)

From Stdlib Require Import ZArith QArith Qcanon Qround String List Bool Lia.
Import ListNotations.

Set Implicit Arguments.

(* ------------------------------------------------------------------ *)
(** ** JavaScript values *)

Module JS.

Inductive number : Type :=
| NaN
| Fin (q : Qc).

(** What a [number]-typed slot of the program can hold at run time:
    a number, [null] (a blank cell of the host) or [undefined]
    (an index past the end of an array). *)
Inductive val : Type :=
| Undefined
| Null
| Num (n : number).

Definition ToNumber (v : val) : number :=
  match v with
  | Undefined => NaN
  | Null => Fin 0
  | Num n => n
  end.

Definition of_Z (z : Z) : number := Fin (Q2Qc (inject_Z z)).
Definition of_nat (n : nat) : number := of_Z (Z.of_nat n).

Definition lift2 (f : Qc -> Qc -> Qc) (a b : number) : number :=
  match a, b with
  | Fin x, Fin y => Fin (f x y)
  | _, _ => NaN
  end.

Definition add : number -> number -> number := lift2 Qcplus.
Definition sub : number -> number -> number := lift2 Qcminus.
Definition mul : number -> number -> number := lift2 Qcmult.

(** [a / b] for a divisor that is not zero.  Every divisor of the
    program below is a non-zero constant or is guarded. *)
Definition div : number -> number -> number := lift2 Qcdiv.

(** [a < b] on numbers: false as soon as one side is [NaN]. *)
Definition ltb (a b : number) : bool :=
  match a, b with
  | Fin x, Fin y => match (x ?= y)%Qc with Lt => true | _ => false end
  | _, _ => false
  end.

(** [a >= b] on numbers. *)
Definition geb (a b : number) : bool :=
  match a, b with
  | Fin x, Fin y => match (x ?= y)%Qc with Lt => false | _ => true end
  | _, _ => false
  end.

(** [v != null]: neither [null] nor [undefined]. *)
Definition not_nullish (v : val) : bool :=
  match v with
  | Undefined | Null => false
  | Num _ => true
  end.

Definition floor (a : number) : number :=
  match a with
  | NaN => NaN
  | Fin x => of_Z (Qfloor x)
  end.

(** [Math.round]: the nearest integer, halves going up. *)
Definition round (a : number) : number :=
  floor (add a (Fin (Q2Qc (1 # 2)))).

Inductive error : Type :=
| TypeError (property : string).

End JS.

(* ------------------------------------------------------------------ *)
(** ** Completions: a small state and exception monad *)

Section Completion.

Variable S : Type.

Inductive completion (A : Type) : Type :=
| Normal (a : A) (s : S)
| Throw (e : JS.error) (s : S).

Definition M (A : Type) : Type := S -> completion A.

Definition ret {A} (a : A) : M A := fun s => Normal a s.

Definition throw {A} (e : JS.error) : M A := fun s => Throw A e s.

Definition bind {A B} (m : M A) (k : A -> M B) : M B :=
  fun s =>
    match m s with
    | Normal a s' => k a s'
    | Throw _ e s' => Throw B e s'
    end.

Definition get : M S := fun s => Normal s s.

Definition modify (f : S -> S) : M unit := fun s => Normal tt (f s).

(** The instance a completion leaves behind. *)
Definition final {A} (c : completion A) : S :=
  match c with
  | Normal _ s => s
  | Throw _ _ s => s
  end.

End Completion.

Arguments Normal {S A} a s.
Arguments Throw {S A} e s.
Arguments ret {S A} a.
Arguments throw {S A} e.
Arguments bind {S A B} m k.
Arguments get {S}.
Arguments modify {S} f.
Arguments final {S A} c.

Notation "x <- m ;; k" := (bind m (fun x => k))
  (at level 61, m at next level, right associativity).
Notation "m ;;; k" := (bind m (fun _ => k))
  (at level 61, right associativity).

(* ------------------------------------------------------------------ *)
(** ** The view model (interfaces BarPoint, BarModel, LinePoint, LineModel) *)

Record BarPoint : Type := mkPoint {
  category : option string;      (* [None] is [undefined] *)
  value : JS.val
}.

Record BarModel : Type := mkModel {
  dataPoints : list BarPoint;
  maxValue : JS.val
}.

(** The line interfaces have the same fields; the source itself types its
    local line model as a [BarModel]. *)
Definition LinePoint : Type := BarPoint.
Definition LineModel : Type := BarModel.

(* ------------------------------------------------------------------ *)
(** ** The part of d3 (version 3) the visual calls *)

Module D3.

(** [d3.max(array, f)]: the first loop looks for a first comparable
    value, the second keeps the larger of what it has and what it sees. *)
Section Max.
Variable A : Type.
Variable f : A -> JS.val.

Fixpoint max_rest (a : JS.val) (array : list A) : JS.val :=
  match array with
  | [] => a
  | x :: rest =>
      let b := f x in
      if JS.not_nullish b && JS.ltb (JS.ToNumber a) (JS.ToNumber b)
      then max_rest b rest
      else max_rest a rest
  end.

Fixpoint max (array : list A) : JS.val :=
  match array with
  | [] => JS.Undefined
  | x :: rest =>
      let b := f x in
      if JS.not_nullish b && JS.geb (JS.ToNumber b) (JS.ToNumber b)
      then max_rest b rest
      else max rest
  end.
End Max.

(** *** d3.scale.linear with a domain and a range of two numbers *)

Record Linear : Type := mkLinear {
  lin_domain : JS.number * JS.number;
  lin_range : JS.number * JS.number
}.

(** [scale.domain(x)] stores [x.map(Number)]. *)
Definition linear (d0 d1 : JS.val) (r0 r1 : JS.number) : Linear :=
  mkLinear (JS.ToNumber d0, JS.ToNumber d1) (r0, r1).

(** [d3_uninterpolateNumber]: [b = (b -= a) || 1 / b], then
    [(x - a) / b].  A width of zero makes the divisor infinite, and the
    quotient zero for a finite numerator. *)
Definition uninterpolateNumber (a b : JS.number) (x : JS.val) : JS.number :=
  match JS.sub b a with
  | JS.NaN => JS.NaN
  | JS.Fin w =>
      match (w ?= 0)%Qc with
      | Eq => match JS.sub (JS.ToNumber x) a with
              | JS.NaN => JS.NaN
              | JS.Fin _ => JS.Fin 0
              end
      | _ => JS.div (JS.sub (JS.ToNumber x) a) (JS.Fin w)
      end
  end.

(** [d3_interpolateNumber]: [a * (1 - t) + b * t]. *)
Definition interpolateNumber (a b t : JS.number) : JS.number :=
  JS.add (JS.mul a (JS.sub (JS.Fin 1) t)) (JS.mul b t).

Definition apply_linear (s : Linear) (x : JS.val) : JS.number :=
  interpolateNumber (fst (lin_range s)) (snd (lin_range s))
    (uninterpolateNumber (fst (lin_domain s)) (snd (lin_domain s)) x).

(** *** d3.scale.ordinal with rangeRoundBands *)

(** The key d3's map files a domain value under: its string. *)
Definition key (c : option string) : string :=
  match c with
  | Some s => s
  | None => "undefined"%string
  end.

(** [scale.domain(x)]: the values of [x] whose key was not seen yet. *)
Fixpoint unique (seen : list string) (x : list (option string))
  : list (option string) :=
  match x with
  | [] => []
  | xi :: rest =>
      if existsb (String.eqb (key xi)) seen
      then unique seen rest
      else xi :: unique (key xi :: seen) rest
  end.

Record Ordinal : Type := mkOrdinal {
  ord_domain : list (option string);
  ord_range : list JS.number;
  ord_rangeBand : JS.number
}.

(** [steps(start, step)]: one position per domain value. *)
Definition steps (n : nat) (start step : JS.number) : list JS.number :=
  map (fun i => JS.add start (JS.mul step (JS.of_nat i))) (seq 0 n).

(** [scale.domain(x).rangeRoundBands([x0, x1], padding)]; the outer
    padding defaults to the padding.  The step, the first position and
    the band width are computed in exact rationals: where a quotient
    falls on or next to an integer they can differ by one from what d3
    computes in doubles.  No theorem below depends on their values. *)
Definition rangeRoundBands (x : list (option string))
    (x0 x1 padding : JS.number) : Ordinal :=
  let domain := unique [] x in
  let n := JS.of_nat (length domain) in
  let outerPadding := padding in
  let reverse := JS.ltb x1 x0 in
  let start := if reverse then x1 else x0 in
  let stop := if reverse then x0 else x1 in
  let step :=
    JS.floor (JS.div (JS.sub stop start)
                (JS.add (JS.sub n padding)
                        (JS.mul (JS.of_Z 2) outerPadding))) in
  let first :=
    JS.add start
      (JS.round (JS.div (JS.sub (JS.sub stop start)
                                (JS.mul (JS.sub n padding) step))
                        (JS.of_Z 2))) in
  let range := steps (length domain) first step in
  mkOrdinal domain
    (if reverse then rev range else range)
    (JS.round (JS.mul step (JS.sub (JS.Fin 1) padding))).

(** The 0-based place of a key in the domain. *)
Fixpoint index (k : string) (domain : list (option string)) : option nat :=
  match domain with
  | [] => None
  | d :: rest =>
      if String.eqb (key d) k then Some O
      else option_map S (index k rest)
  end.

(** [scale(x)]: the range entry of [x], [undefined] off the domain. *)
Definition apply_ordinal (s : Ordinal) (x : option string)
  : option JS.number :=
  match index (key x) (ord_domain s) with
  | Some i => nth_error (ord_range s) (i mod length (ord_range s))
  | None => None
  end.

(** *** d3.svg.axis: the generator's settings *)

Inductive Scale : Type :=
| OrdinalScale (s : Ordinal)
| LinearScale (s : Linear).

Record Axis : Type := mkAxis {
  axis_scale : Scale;
  axis_orient : string;
  axis_innerTickSize : Z;
  axis_outerTickSize : Z;
  axis_tickPadding : Z
}.

(** *** d3.svg.line: the points the generated path goes through, or
    [null] without points *)
Definition line (A : Type) (fx fy : A -> JS.number) (data : list A)
  : option (list (JS.number * JS.number)) :=
  match data with
  | [] => None
  | _ => Some (map (fun d => (fx d, fy d)) data)
  end.

End D3.

(* ------------------------------------------------------------------ *)
(** ** The host's data view (the part of [VisualUpdateOptions] the
       visual reads).  An optional property is an [option]: [None] is a
       property that is missing. *)

Record DataViewMetadataColumn : Type := mkColumn {
  displayName : string
}.

Record DataViewCategoryColumn : Type := mkCategoryColumn {
  cat_source : option DataViewMetadataColumn;
  cat_values : list string
}.

Record DataViewValueColumn : Type := mkValueColumn {
  val_values : list JS.val
}.

Record DataViewCategorical : Type := mkCategorical {
  categories : option (list DataViewCategoryColumn);
  values : option (list DataViewValueColumn)
}.

Record DataViewMetadata : Type := mkMetadata {
  columns : list DataViewMetadataColumn
}.

Record DataView : Type := mkDataView {
  categorical : option DataViewCategorical;
  metadata : option DataViewMetadata
}.

Record IViewport : Type := mkViewport {
  width : JS.number;
  height : JS.number
}.

Record VisualUpdateOptions : Type := mkOptions {
  dataViews : option (list DataView);
  viewport : IViewport
}.

(* ------------------------------------------------------------------ *)
(** ** The retained SVG elements *)

(** A [rect] of the bar group: the datum bound to it and its attributes
    ([None]: the attribute is not set). *)
Record Rect : Type := mkRect {
  rect_data : BarPoint;
  rect_width : option JS.number;
  rect_height : option JS.number;
  rect_y : option JS.number;
  rect_x : option JS.number;
  rect_fill : option string
}.

(** A [path] of the line group. *)
Record Path : Type := mkPath {
  path_class : string;
  path_translate : JS.number * JS.number;
  path_d : option (list (JS.number * JS.number))
}.

(** An axis group: the generator last called on it (d3 draws its ticks
    from the generator's settings alone), its translation and the styles
    put on it and on its tick labels. *)
Record AxisGroup : Type := mkAxisGroup {
  ag_axis : option D3.Axis;
  ag_translate : option (JS.number * JS.number);
  ag_fill : option string;
  ag_text_transform : option string;
  ag_text_anchor : option string;
  ag_text_font_size : option string
}.

Definition empty_group : AxisGroup :=
  mkAxisGroup None None None None None None.

(* ------------------------------------------------------------------ *)
(** ** class Visual *)

Record Padding : Type := mkPadding {
  top : JS.number;
  right : JS.number;
  bottom : JS.number;
  left : JS.number
}.

Record Settings : Type := mkSettings {
  padding : Padding
}.

(** The fields of the instance that change.  [barGap] and [settings] are
    initialised once and never assigned: they are the constants below. *)
Record Visual : Type := mkVisual {
  svg : option (JS.number * JS.number);   (* width and height attributes *)
  xAxisGroup : AxisGroup;
  yAxisGroupLeft : AxisGroup;
  yAxisGroupRight : AxisGroup;
  barGroup : list Rect;
  barModel : option BarModel;             (* [None] is [undefined] *)
  lineGroup : list Path;
  lineModel : option LineModel
}.

Definition barGap : JS.number := JS.Fin (Q2Qc (3 # 10)).

Definition settings : Settings :=
  mkSettings (mkPadding (JS.of_Z 30) (JS.of_Z 50) (JS.of_Z 50) (JS.of_Z 30)).

(** The constructor: an [svg] with five empty groups, no model yet. *)
Definition constructor : Visual :=
  mkVisual None empty_group empty_group empty_group [] None [] None.

Definition set_svg (a : JS.number * JS.number) (s : Visual) : Visual :=
  mkVisual (Some a) (xAxisGroup s) (yAxisGroupLeft s) (yAxisGroupRight s)
    (barGroup s) (barModel s) (lineGroup s) (lineModel s).

Definition set_xAxisGroup (g : AxisGroup) (s : Visual) : Visual :=
  mkVisual (svg s) g (yAxisGroupLeft s) (yAxisGroupRight s)
    (barGroup s) (barModel s) (lineGroup s) (lineModel s).

Definition set_yAxisGroupLeft (g : AxisGroup) (s : Visual) : Visual :=
  mkVisual (svg s) (xAxisGroup s) g (yAxisGroupRight s)
    (barGroup s) (barModel s) (lineGroup s) (lineModel s).

Definition set_yAxisGroupRight (g : AxisGroup) (s : Visual) : Visual :=
  mkVisual (svg s) (xAxisGroup s) (yAxisGroupLeft s) g
    (barGroup s) (barModel s) (lineGroup s) (lineModel s).

Definition set_barGroup (g : list Rect) (s : Visual) : Visual :=
  mkVisual (svg s) (xAxisGroup s) (yAxisGroupLeft s) (yAxisGroupRight s)
    g (barModel s) (lineGroup s) (lineModel s).

Definition set_barModel (m : BarModel) (s : Visual) : Visual :=
  mkVisual (svg s) (xAxisGroup s) (yAxisGroupLeft s) (yAxisGroupRight s)
    (barGroup s) (Some m) (lineGroup s) (lineModel s).

Definition set_lineGroup (g : list Path) (s : Visual) : Visual :=
  mkVisual (svg s) (xAxisGroup s) (yAxisGroupLeft s) (yAxisGroupRight s)
    (barGroup s) (barModel s) g (lineModel s).

Definition set_lineModel (m : LineModel) (s : Visual) : Visual :=
  mkVisual (svg s) (xAxisGroup s) (yAxisGroupLeft s) (yAxisGroupRight s)
    (barGroup s) (barModel s) (lineGroup s) (Some m).

(** [o.p] for an [o] that may be [undefined]. *)
Definition read {A : Type} (o : option A) (p : string) : M Visual A :=
  match o with
  | Some a => ret a
  | None => throw (JS.TypeError p)
  end.

(** [array[i]] on numbers: [undefined] past the end. *)
Definition at_index (array : list JS.val) (i : nat) : JS.val :=
  match nth_error array i with
  | Some v => v
  | None => JS.Undefined
  end.

(** *** setViewModel *)

(** The guard of lines 114-121.  [||] stops at the first operand that is
    true; the fifth operand reads [source] off [categories[0]]. *)
Definition invalid (dv : option (list DataView)) : M Visual bool :=
  match dv with
  | None => ret true
  | Some dv =>
      match nth_error dv 0 with
      | None => ret true
      | Some dv0 =>
          match categorical dv0 with
          | None => ret true
          | Some view =>
              match categories view with
              | None => ret true
              | Some cs =>
                  c0 <- read (nth_error cs 0) "source" ;;
                  match cat_source c0 with
                  | None => ret true
                  | Some _ =>
                      match values view with
                      | None => ret true
                      | Some _ =>
                          match metadata dv0 with
                          | None => ret true
                          | Some _ => ret false
                          end
                      end
                  end
              end
          end
      end
  end.

(** The two [for] loops (lines 129-134 and 139-144): one point for each
    [i] below the larger of the two lengths. *)
Definition points (cats : list string) (vals : list JS.val) : list BarPoint :=
  map (fun i => mkPoint (nth_error cats i) (at_index vals i))
      (seq 0 (Nat.max (length cats) (length vals))).

(** The points, and their largest value as [d3.max] finds it. *)
Definition model (cats : list string) (vals : list JS.val) : BarModel :=
  let dps := points cats vals in
  mkModel dps (D3.max value dps).

(** The model both locals start as. *)
Definition empty_model : BarModel := mkModel [] (JS.Num (JS.Fin 0)).

(** [dv[0].categorical], which the guard has found when it lets a view
    through. *)
Definition the_view (dv : option (list DataView)) : option DataViewCategorical :=
  match dv with
  | Some (dv0 :: _) => categorical dv0
  | _ => None
  end.

(** The method returns its local bar model, still empty, from the guard
    (line 121) and nothing ([None]) when it runs to its end; it stores
    the bar model (line 136) before it reads the line column (line 139). *)
Definition setViewModel (options : VisualUpdateOptions)
  : M Visual (option BarModel) :=
  let dv := dataViews options in
  let barModel := empty_model in
  bad <- invalid dv ;;
  if bad : bool then ret (Some barModel)
  else
    view <- read (the_view dv) "categories" ;;
    cs <- read (categories view) "0" ;;
    vs <- read (values view) "0" ;;
    let categories := nth_error cs 0 in
    let barValues := nth_error vs 0 in
    let lineValues := nth_error vs 1 in
    (* Set barModel *)
    categories <- read categories "values" ;;
    barValues <- read barValues "values" ;;
    modify (set_barModel (model (cat_values categories) (val_values barValues))) ;;;
    (* Set lineModel *)
    lineValues <- read lineValues "values" ;;
    modify (set_lineModel (model (cat_values categories) (val_values lineValues))) ;;;
    ret None.

(** *** update *)

(** [selection.call(axis)] and the attributes and styles that follow. *)
Definition draw_axis (axis : D3.Axis) (translate : JS.number * JS.number)
    (text_transform : option string) (g : AxisGroup) : AxisGroup :=
  mkAxisGroup (Some axis) (Some translate) (Some "#777777"%string)
    (match text_transform with
     | Some t => Some t
     | None => ag_text_transform g
     end)
    (Some "end"%string) (Some "x-small"%string).

(** [selectAll(".bar").data(dataPoints)] joins by index: the first
    rects take the data in order (the update selection), the data
    without a rect go to the enter selection; the rects without a datum
    (the exit selection) are the ones [exit().remove()] takes away. *)
Definition bound (d : BarPoint) (r : Rect) : Rect :=
  mkRect d (rect_width r) (rect_height r) (rect_y r) (rect_x r) (rect_fill r).

Definition join_update (rects : list Rect) (data : list BarPoint) : list Rect :=
  map (fun rd => bound (snd rd) (fst rd)) (combine rects data).

Definition join_enter (rects : list Rect) (data : list BarPoint) : list BarPoint :=
  skipn (length rects) data.

(** [enter().append("rect")]: a new rect holding its datum; in d3 3 the
    appended rects join the update selection. *)
Definition append_rect (d : BarPoint) : Rect :=
  mkRect d None None None None None.

(** [bars.attr({width, height, y, x}).style({fill})] on one rect. *)
Definition bar_attr (xScale : D3.Ordinal) (yScaleLeft : D3.Linear)
    (height : JS.number) (r : Rect) : Rect :=
  let d := rect_data r in
  mkRect d
    (Some (D3.ord_rangeBand xScale))
    (Some (JS.sub (JS.sub height (D3.apply_linear yScaleLeft (value d)))
                  (bottom (padding settings))))
    (Some (D3.apply_linear yScaleLeft (value d)))
    (D3.apply_ordinal xScale (category d))
    (Some "#00c097"%string).

(** The bar group after enter, attr and exit().remove(). *)
Definition draw_bars (xScale : D3.Ordinal) (yScaleLeft : D3.Linear)
    (height : JS.number) (data : list BarPoint) (rects : list Rect)
  : list Rect :=
  map (bar_attr xScale yScaleLeft height)
      (join_update rects data ++ map append_rect (join_enter rects data)).

(** [+x]: the number of a scale's answer. *)
Definition plus (x : option JS.number) : JS.number :=
  match x with
  | Some n => n
  | None => JS.NaN
  end.

(** [select(".line").remove()] takes the first path away. *)
Definition remove_first (paths : list Path) : list Path := tl paths.

Definition update (options : VisualUpdateOptions) : M Visual unit :=
  (* Set barModel, lineModel *)
  setViewModel options ;;;
  (* svg width, height *)
  let width := width (viewport options) in
  let height := height (viewport options) in
  let pad := padding settings in
  (* x axis *)
  this <- get ;;
  bars_model <- read (barModel this) "dataPoints" ;;
  let xScale :=
    D3.rangeRoundBands (map category (dataPoints bars_model))
      (left pad) (JS.sub width (right pad)) barGap in
  let xAxis := D3.mkAxis (D3.OrdinalScale xScale) "bottom" 1 1 10 in
  (* y axis *)
  let yScaleLeft :=
    D3.linear (JS.Num (JS.Fin 0)) (maxValue bars_model)
      (JS.sub height (bottom pad)) (top pad) in
  let yAxisLeft := D3.mkAxis (D3.LinearScale yScaleLeft) "left" 5 1 5 in
  line_model <- read (lineModel this) "maxValue" ;;
  let yScaleRight :=
    D3.linear (JS.Num (JS.Fin 0)) (maxValue line_model)
      (JS.sub height (bottom pad)) (top pad) in
  let yAxisRight := D3.mkAxis (D3.LinearScale yScaleRight) "right" 5 1 15 in
  (* Define the line *)
  let valueline :=
    D3.line (fun d => plus (D3.apply_ordinal xScale (category d)))
            (fun d => D3.apply_linear yScaleRight (value d)) in
  (* Add svg width and height *)
  modify (set_svg (width, height)) ;;;
  (* Add x axis *)
  modify (fun s =>
    set_xAxisGroup
      (draw_axis xAxis (JS.of_Z 0, JS.sub height (bottom pad))
         (Some "rotate(-35)"%string) (xAxisGroup s)) s) ;;;
  (* Add y axis *)
  modify (fun s =>
    set_yAxisGroupLeft
      (draw_axis yAxisLeft (left pad, JS.of_Z 0) None (yAxisGroupLeft s)) s) ;;;
  modify (fun s =>
    set_yAxisGroupRight
      (draw_axis yAxisRight (JS.sub width (right pad), JS.of_Z 0) None
         (yAxisGroupRight s)) s) ;;;
  (* Add bars *)
  modify (fun s =>
    set_barGroup
      (draw_bars xScale yScaleLeft height (dataPoints bars_model) (barGroup s))
      s) ;;;
  (* Remove old lines and add new one *)
  modify (fun s => set_lineGroup (remove_first (lineGroup s)) s) ;;;
  modify (fun s =>
    set_lineGroup
      (lineGroup s ++
       [mkPath "line"
          (JS.div (D3.ord_rangeBand xScale) (JS.of_Z 2), JS.of_Z 0)
          (valueline (dataPoints line_model))]) s).

(** The instances a host can hold: the constructed one, and what any
    call of [update] leaves, whether it returns or throws. *)
Inductive reachable : Visual -> Prop :=
| reach_constructor : reachable constructor
| reach_update options s :
    reachable s -> reachable (final (update options s)).

Local Open Scope nat_scope.
Unset Implicit Arguments.

(* ------------------------------------------------------------------ *)
(** ** Sample inputs *)

Definition some_column : DataViewMetadataColumn := mkColumn "c".

Definition n (z : Z) : JS.val := JS.Num (JS.of_Z z).

Definition view_of (cats : list string) (cols : list (list JS.val)) : DataView :=
  mkDataView
    (Some (mkCategorical
             (Some [mkCategoryColumn (Some some_column) cats])
             (Some (map mkValueColumn cols))))
    (Some (mkMetadata [some_column])).

Definition viewport_400_300 : IViewport :=
  mkViewport (JS.of_Z 400) (JS.of_Z 300).

(** Categories A, B, C with bar values 1, 5, 2 and line values 3, 1, 4. *)
Definition abc_options : VisualUpdateOptions :=
  mkOptions
    (Some [view_of ["A"; "B"; "C"]%string [[n 1; n 5; n 2]; [n 3; n 1; n 4]]])
    viewport_400_300.

(** A data view without a categorical section. *)
Definition no_categorical_options : VisualUpdateOptions :=
  mkOptions (Some [mkDataView None (Some (mkMetadata []))]) viewport_400_300.

Definition abc_categories : DataViewCategoryColumn :=
  mkCategoryColumn (Some some_column) ["A"; "B"; "C"]%string.

Definition abc_bars : DataViewValueColumn := mkValueColumn [n 1; n 5; n 2].

Definition abc_line : DataViewValueColumn := mkValueColumn [n 3; n 1; n 4].

(** Categories present but empty, no values, no metadata. *)
Definition empty_categories_options : VisualUpdateOptions :=
  mkOptions (Some [mkDataView (Some (mkCategorical (Some []) None)) None])
    viewport_400_300.

(** Categories A and B and the bar column alone. *)
Definition one_measure_options : VisualUpdateOptions :=
  mkOptions (Some [view_of ["A"; "B"]%string [[n 1; n 5]]]) viewport_400_300.

(** One bar whose value is 0, which is also the largest value. *)
Definition zero_options : VisualUpdateOptions :=
  mkOptions (Some [view_of ["A"]%string [[n 0]; [n 1]]]) viewport_400_300.

(** Two bars, of value 0 and of the largest value 5. *)
Definition zero_five_options : VisualUpdateOptions :=
  mkOptions (Some [view_of ["A"; "B"]%string [[n 0; n 5]; [n 1; n 2]]])
    viewport_400_300.

Definition abc_drawn : Visual := final (update abc_options constructor).

Definition zero_five_drawn : Visual :=
  final (update zero_five_options constructor).

Definition zero_five_bars : BarModel :=
  model ["A"; "B"]%string [n 0; n 5].

(** The second rect of the bar group: the bar of value 5. *)
Definition five_bar : Rect :=
  nth 1 (barGroup zero_five_drawn) (append_rect (mkPoint None JS.Undefined)).

Definition as_Q (x : option JS.number) : option Q :=
  match x with
  | Some (JS.Fin q) => Some (this q)
  | _ => None
  end.

(** A data view that passes the guard with no measure column at all. *)
Definition no_measure_options : VisualUpdateOptions :=
  mkOptions (Some [view_of ["A"]%string []]) viewport_400_300.

(** A data view that passes the guard with no row: no category and two
    empty measure columns. *)
Definition no_row_options : VisualUpdateOptions :=
  mkOptions (Some [view_of [] [[]; []]]) viewport_400_300.

(** Three categories, a bar column that stops after its first value and
    holds a blank, and a full line column. *)
Definition sparse_options : VisualUpdateOptions :=
  mkOptions
    (Some [view_of ["A"; "B"; "C"]%string [[JS.Null; n 4]; [n 3; n 1; n 4]]])
    viewport_400_300.

Definition sparse_drawn : Visual := final (update sparse_options constructor).

(** The instance after a first update that had the bar column alone:
    a bar model and no line model. *)
Definition half_built : Visual :=
  final (update one_measure_options constructor).

(** The rects of A (a blank) and of C (no value) in [sparse_drawn]. *)
Definition blank_bar : Rect :=
  nth 0 (barGroup sparse_drawn) (append_rect (mkPoint None (n 1))).

Definition valueless_bar : Rect :=
  nth 2 (barGroup sparse_drawn) (append_rect (mkPoint None (n 1))).

(** Category A with bar value 1 and line values 2 and 3. *)
Definition long_line_options : VisualUpdateOptions :=
  mkOptions (Some [view_of ["A"]%string [[n 1]; [n 2; n 3]]]) viewport_400_300.

(** Three categories, one bar value and four line values: the bar
    column is shorter than the categories and the line column longer. *)
Definition short_bars : DataViewValueColumn := mkValueColumn [n 1].

Definition mismatch_options : VisualUpdateOptions :=
  mkOptions
    (Some [view_of ["A"; "B"; "C"]%string [[n 1]; [n 3; n 1; n 4; n 2]]])
    viewport_400_300.

(* ------------------------------------------------------------------ *)
(** ** Reading a data view *)

(** The category column and the value columns of the first data view. *)
Definition category_column (options : VisualUpdateOptions)
  : option DataViewCategoryColumn :=
  match the_view (dataViews options) with
  | Some view =>
      match categories view with
      | Some cs => nth_error cs 0
      | None => None
      end
  | None => None
  end.

Definition value_column (options : VisualUpdateOptions) (k : nat)
  : option DataViewValueColumn :=
  match the_view (dataViews options) with
  | Some view =>
      match values view with
      | Some vs => nth_error vs k
      | None => None
      end
  | None => None
  end.

(** The guard lets the data view through. *)
Definition passes (options : VisualUpdateOptions) : Prop :=
  forall s, invalid (dataViews options) s = Normal false s.

(** The first data view, when there is one. *)
Definition first_view (options : VisualUpdateOptions) : option DataView :=
  match dataViews options with
  | Some (dv0 :: _) => Some dv0
  | _ => None
  end.

(** One of the things the guard asks for is missing: the data views or
    their first element, its metadata, its categorical section, the
    categories, the values, or the source of the first category column. *)
Definition something_missing (options : VisualUpdateOptions) : Prop :=
  match first_view options with
  | None => True
  | Some dv0 =>
      metadata dv0 = None \/
      match categorical dv0 with
      | None => True
      | Some view =>
          categories view = None \/
          values view = None \/
          exists c0 cs, categories view = Some (c0 :: cs) /\ cat_source c0 = None
      end
  end.

(** The categories are there, and are an empty array. *)
Definition empty_categories (options : VisualUpdateOptions) : Prop :=
  exists view,
    the_view (dataViews options) = Some view /\ categories view = Some [].

(* ------------------------------------------------------------------ *)
(** ** What the models and the line group are asked to be *)

(** A model holds the points of [cats] and [vals]: as many as the longer
    of the two, the point at [i] made of [cats[i]] and [vals[i]] (the
    element the array holds at [i], when it holds one), a field being
    [undefined] past the end of its array. *)
Definition series_of (cats : list string) (vals : list JS.val) (m : BarModel)
  : Prop :=
  length (dataPoints m) = Nat.max (length cats) (length vals) /\
  forall i, i < Nat.max (length cats) (length vals) ->
    exists p, nth_error (dataPoints m) i = Some p /\
      (forall c, nth_error cats i = Some c -> category p = Some c) /\
      (forall v, nth_error vals i = Some v -> value p = v) /\
      (length cats <= i -> category p = None) /\
      (length vals <= i -> value p = JS.Undefined).

(** The largest value of a list of points, as the specification words
    it: [m] is a number some point carries and no point carries a larger
    one; or no point carries a number ([undefined], [null] and [NaN] are
    passed over) and [m] is [undefined]. *)
Definition true_maximum (dps : list BarPoint) (m : JS.val) : Prop :=
  match m with
  | JS.Num (JS.Fin q) =>
      (exists p, In p dps /\ value p = JS.Num (JS.Fin q)) /\
      (forall p r, In p dps -> value p = JS.Num (JS.Fin r) -> (r <= q)%Qc)
  | JS.Undefined =>
      forall p r, In p dps -> value p <> JS.Num (JS.Fin r)
  | _ => False
  end.

(** The line group never holds more than one path. *)
Definition one_line (s : Visual) : Prop := length (lineGroup s) <= 1.

(** A model [setViewModel] built from some categories and values. *)
Definition from_a_view (m : BarModel) : Prop :=
  exists cats vals, m = model cats vals.

Definition models_built (s : Visual) : Prop :=
  (lineModel s <> None -> barModel s <> None) /\
  (forall m, barModel s = Some m -> from_a_view m) /\
  (forall m, lineModel s = Some m -> from_a_view m).

(* ------------------------------------------------------------------ *)
(** ** The scales of an update and the instance it leaves *)

(** The scales [update] computes from the stored models (its locals
    [xScale], [yScaleLeft] and [yScaleRight]). *)
Definition xScale (options : VisualUpdateOptions) (bm : BarModel) : D3.Ordinal :=
  D3.rangeRoundBands (map category (dataPoints bm))
    (left (padding settings))
    (JS.sub (width (viewport options)) (right (padding settings)))
    barGap.

Definition yScale (options : VisualUpdateOptions) (m : BarModel) : D3.Linear :=
  D3.linear (JS.Num (JS.Fin 0)) (maxValue m)
    (JS.sub (height (viewport options)) (bottom (padding settings)))
    (top (padding settings)).

Definition the_line (options : VisualUpdateOptions) (bm : BarModel)
    (lm : LineModel) : Path :=
  mkPath "line"
    (JS.div (D3.ord_rangeBand (xScale options bm)) (JS.of_Z 2), JS.of_Z 0)
    (D3.line
       (fun d => plus (D3.apply_ordinal (xScale options bm) (category d)))
       (fun d => D3.apply_linear (yScale options lm) (value d))
       (dataPoints lm)).

(** The instance after the drawing statements, for stored models [bm]
    and [lm]. *)
Definition drawn (options : VisualUpdateOptions) (bm : BarModel)
    (lm : LineModel) (s : Visual) : Visual :=
  let w := width (viewport options) in
  let h := height (viewport options) in
  let pad := padding settings in
  mkVisual (Some (w, h))
    (draw_axis
       (D3.mkAxis (D3.OrdinalScale (xScale options bm)) "bottom" 1 1 10)
       (JS.of_Z 0, JS.sub h (bottom pad)) (Some "rotate(-35)"%string)
       (xAxisGroup s))
    (draw_axis
       (D3.mkAxis (D3.LinearScale (yScale options bm)) "left" 5 1 5)
       (left pad, JS.of_Z 0) None (yAxisGroupLeft s))
    (draw_axis
       (D3.mkAxis (D3.LinearScale (yScale options lm)) "right" 5 1 15)
       (JS.sub w (right pad), JS.of_Z 0) None (yAxisGroupRight s))
    (draw_bars (xScale options bm) (yScale options bm) h (dataPoints bm)
       (barGroup s))
    (barModel s)
    (remove_first (lineGroup s) ++ [the_line options bm lm])
    (lineModel s).

(* ------------------------------------------------------------------ *)
(** ** What setViewModel does, case by case *)

Ltac take_apart options :=
  destruct options as
    [[[|[[[[[|[[?src|] ?cv] ?crest]|] [?vs|]]|] [?md|]] ?rest]|] ?vp].

Ltac run := unfold setViewModel, invalid, bind, read, ret, throw, modify; simpl.

(** A view that passes, with its two measure columns: both models are
    built from it and stored. *)
Lemma setViewModel_builds options c0 bar line s :
  passes options ->
  category_column options = Some c0 ->
  value_column options 0 = Some bar ->
  value_column options 1 = Some line ->
  setViewModel options s =
    Normal None
      (set_lineModel (model (cat_values c0) (val_values line))
         (set_barModel (model (cat_values c0) (val_values bar)) s)).
Proof.
  intros H Hc Hb Hl. pose proof (H s) as H0. clear H.
  take_apart options; unfold category_column, value_column in *;
    unfold invalid, bind, read, ret, throw in H0; simpl in *; try discriminate.
  destruct vs as [|b [|l vs]]; simpl in *; try discriminate.
  injection Hc as <-. injection Hb as <-. injection Hl as <-.
  run. reflexivity.
Qed.

(** However the data view looks, the method does one of four things,
    and which one does not depend on the instance. *)
Lemma setViewModel_cases options :
  (forall s, setViewModel options s = Normal (Some empty_model) s) \/
  (exists e, forall s, setViewModel options s = Throw e s) \/
  (exists e bm, forall s,
      setViewModel options s = Throw e (set_barModel bm s)) \/
  (exists bm lm, forall s,
      setViewModel options s =
        Normal None (set_lineModel lm (set_barModel bm s))).
Proof.
  take_apart options; run;
    try (left; reflexivity);
    try (right; left; eexists; reflexivity).
  destruct vs as [|b [|l vs]]; simpl.
  - right; left; eexists; reflexivity.
  - right; right; left. do 2 eexists. reflexivity.
  - right; right; right. do 2 eexists. reflexivity.
Qed.

(* ------------------------------------------------------------------ *)
(** ** The points of a series *)

Lemma points_length (cats : list string) (vals : list JS.val) :
  length (points cats vals) = Nat.max (length cats) (length vals).
Proof. unfold points. now rewrite length_map, length_seq. Qed.

Lemma points_nth (cats : list string) (vals : list JS.val) i :
  i < Nat.max (length cats) (length vals) ->
  nth_error (points cats vals) i =
    Some (mkPoint (nth_error cats i) (at_index vals i)).
Proof.
  intro Hi. unfold points.
  rewrite nth_error_map, nth_error_seq.
  destruct (Nat.ltb_spec i (Nat.max (length cats) (length vals))); [reflexivity | lia].
Qed.

Lemma at_index_past vals i : length vals <= i -> at_index vals i = JS.Undefined.
Proof.
  intro H. unfold at_index.
  now rewrite (proj2 (nth_error_None vals i) H).
Qed.

Lemma model_series_of cats vals : series_of cats vals (model cats vals).
Proof.
  split; [apply points_length|].
  intros i Hi. eexists. split; [apply points_nth, Hi|]. simpl.
  repeat split.
  - intros c Hc. exact Hc.
  - intros v Hv. unfold at_index. now rewrite Hv.
  - intro H. now apply nth_error_None.
  - apply at_index_past.
Qed.

(* ------------------------------------------------------------------ *)
(** ** d3.max finds the largest number *)

Section MaxSpec.

Variable A : Type.
Variable f : A -> JS.val.

Lemma not_lt_ge (q r : Qc) : (q ?= r)%Qc <> Lt -> (r <= q)%Qc.
Proof.
  intro H. apply Qcnot_lt_le. intro Hlt. apply H. now apply Qclt_alt.
Qed.

Lemma max_rest_spec (array : list A) : forall q,
  exists q',
    D3.max_rest f (JS.Num (JS.Fin q)) array = JS.Num (JS.Fin q') /\
    (q <= q')%Qc /\
    (q' = q \/ exists x, In x array /\ f x = JS.Num (JS.Fin q')) /\
    (forall x r, In x array -> f x = JS.Num (JS.Fin r) -> (r <= q')%Qc).
Proof.
  induction array as [|x rest IH]; intro q; simpl.
  - exists q. repeat split.
    + apply Qcle_refl.
    + now left.
    + intros x r [].
  - destruct (f x) as [| |[|r]] eqn:Hx; simpl.
    1-3: destruct (IH q) as (q' & E & Hle & Hin & Hub); exists q';
      repeat split; auto;
      [ destruct Hin as [->|(y & Hy & Ey)]; [now left | right; exists y; auto]
      | intros y r [<-|Hy] Er; [congruence | eauto] ].
    destruct (q ?= r)%Qc eqn:Hc.
    + destruct (IH q) as (q' & E & Hle & Hin & Hub). exists q'.
      apply Qceq_alt in Hc. subst r. repeat split; auto.
      * destruct Hin as [->|(y & Hy & Ey)]; [now left | right; exists y; auto].
      * intros y r [<-|Hy] Er; [|eauto].
        rewrite Hx in Er. injection Er as <-. exact Hle.
    + destruct (IH r) as (q' & E & Hle & Hin & Hub). exists q'.
      apply Qclt_alt in Hc. repeat split; auto.
      * apply Qcle_trans with r; [now apply Qclt_le_weak | exact Hle].
      * right. destruct Hin as [->|(y & Hy & Ey)];
          [exists x; auto | exists y; auto].
      * intros y r' [<-|Hy] Er; [|eauto].
        rewrite Hx in Er. injection Er as <-. exact Hle.
    + destruct (IH q) as (q' & E & Hle & Hin & Hub). exists q'.
      assert (Hrq : (r <= q)%Qc) by (apply not_lt_ge; congruence).
      repeat split; auto.
      * destruct Hin as [->|(y & Hy & Ey)]; [now left | right; exists y; auto].
      * intros y r' [<-|Hy] Er; [|eauto].
        rewrite Hx in Er. injection Er as <-.
        apply Qcle_trans with q; assumption.
Qed.

Lemma geb_refl (q : Qc) : JS.geb (JS.Fin q) (JS.Fin q) = true.
Proof.
  unfold JS.geb. now rewrite (proj1 (Qceq_alt q q) eq_refl).
Qed.

(** Either no element carries a number and the answer is [undefined], or
    the answer is a number carried by an element, and no element carries
    a larger one. *)
Lemma max_spec (array : list A) :
  (D3.max f array = JS.Undefined /\
   forall x r, In x array -> f x <> JS.Num (JS.Fin r)) \/
  (exists q, D3.max f array = JS.Num (JS.Fin q) /\
     (exists x, In x array /\ f x = JS.Num (JS.Fin q)) /\
     forall x r, In x array -> f x = JS.Num (JS.Fin r) -> (r <= q)%Qc).
Proof.
  induction array as [|x rest IH]; simpl.
  - left. split; [reflexivity | intros x r []].
  - destruct (f x) as [| |[|q]] eqn:Hx; cbn [JS.not_nullish JS.ToNumber andb].
    3: change (JS.geb JS.NaN JS.NaN) with false.
    1-3: destruct IH as [(E & Hno)|(q & E & (y & Hy & Ey) & Hub)];
      [ left; split; [exact E | intros y r [<-|Hy]; [congruence | eauto]]
      | right; exists q; repeat split; auto;
        [ exists y; auto
        | intros z r [<-|Hz] Er; [congruence | eauto] ] ].
    rewrite geb_refl.
    destruct (max_rest_spec rest q) as (q' & E & Hle & Hin & Hub).
    right. exists q'. repeat split; auto.
    + destruct Hin as [->|(y & Hy & Ey)]; [exists x; auto | exists y; auto].
    + intros y r [<-|Hy] Er; [|eauto].
      rewrite Hx in Er. injection Er as <-. exact Hle.
Qed.

End MaxSpec.

Lemma model_true_maximum cats vals :
  true_maximum (dataPoints (model cats vals)) (maxValue (model cats vals)).
Proof.
  simpl. destruct (max_spec _ value (points cats vals))
    as [(E & Hno)|(q & E & Hin & Hub)]; rewrite E; simpl; auto.
Qed.

Lemma model_empty cats vals :
  dataPoints (model cats vals) = [] ->
  maxValue (model cats vals) = JS.Undefined.
Proof. simpl. intros ->. reflexivity. Qed.

(* ------------------------------------------------------------------ *)
(** ** What update draws *)

(** [update] is [setViewModel], the two reads of the stored models that
    can fail, and the drawing. *)
Lemma update_unfold options s :
  update options s =
    match setViewModel options s with
    | Throw e s1 => Throw e s1
    | Normal _ s1 =>
        match barModel s1 with
        | None => Throw (JS.TypeError "dataPoints") s1
        | Some bm =>
            match lineModel s1 with
            | None => Throw (JS.TypeError "maxValue") s1
            | Some lm => Normal tt (drawn options bm lm s1)
            end
        end
    end.
Proof.
  unfold update, bind at 1.
  destruct (setViewModel options s) as [r s1|e s1]; [|reflexivity].
  unfold bind, get, read, ret, throw, modify.
  destruct (barModel s1) as [bm|]; [|reflexivity].
  destruct (lineModel s1) as [lm|]; reflexivity.
Qed.

(** The join gives every datum one rect, in order. *)
Lemma join_data rects (data : list BarPoint) :
  map rect_data (join_update rects data ++ map append_rect (join_enter rects data))
  = data.
Proof.
  unfold join_update, join_enter.
  revert data. induction rects as [|r rects IH]; intros [|d data]; simpl; auto.
  - f_equal. rewrite map_map. simpl. now rewrite map_id.
  - f_equal. apply IH.
Qed.

Lemma bar_attr_ext xs ys h r r' :
  rect_data r = rect_data r' -> bar_attr xs ys h r = bar_attr xs ys h r'.
Proof. unfold bar_attr. now intros ->. Qed.

(** The bar group after the drawing: one rect for each point, whatever
    rects were there. *)
Lemma draw_bars_closed xs ys h data rects :
  draw_bars xs ys h data rects =
    map (fun d => bar_attr xs ys h (append_rect d)) data.
Proof.
  unfold draw_bars.
  pose proof (join_data rects data) as E.
  set (l := join_update rects data ++ map append_rect (join_enter rects data)) in *.
  clearbody l. subst data.
  rewrite map_map. apply map_ext. intro r. now apply bar_attr_ext.
Qed.

Lemma draw_axis_twice a t tt g :
  draw_axis a t tt (draw_axis a t tt g) = draw_axis a t tt g.
Proof. unfold draw_axis. destruct tt; reflexivity. Qed.

Lemma replace_line (p : Path) paths :
  length paths <= 1 ->
  remove_first (remove_first paths ++ [p]) ++ [p] = remove_first paths ++ [p].
Proof.
  destruct paths as [|q [|q' paths]]; simpl; intro H; try reflexivity; lia.
Qed.

(** Drawing again from the same models changes nothing, once the line
    group holds at most one path. *)
Lemma drawn_twice options bm lm s :
  length (lineGroup s) <= 1 ->
  drawn options bm lm (drawn options bm lm s) = drawn options bm lm s.
Proof.
  intro H. unfold drawn. cbn [xAxisGroup yAxisGroupLeft yAxisGroupRight
    barGroup barModel lineGroup lineModel].
  rewrite !draw_axis_twice, replace_line by exact H.
  now rewrite !draw_bars_closed.
Qed.

Lemma drawn_one_line options bm lm s :
  one_line s -> length (lineGroup (drawn options bm lm s)) = 1.
Proof.
  unfold one_line. simpl. rewrite length_app. simpl.
  destruct (lineGroup s) as [|p [|q l]]; simpl; lia.
Qed.

Lemma drawn_keeps_one_line options bm lm s :
  one_line s -> one_line (drawn options bm lm s).
Proof.
  intro H. unfold one_line. now rewrite drawn_one_line.
Qed.

Lemma reachable_one_line s : reachable s -> one_line s.
Proof.
  induction 1 as [|options s Hs IH].
  - unfold one_line. simpl. lia.
  - rewrite update_unfold.
    destruct (setViewModel_cases options)
      as [E|[(e & E)|[(e & bm & E)|(bm & lm & E)]]]; rewrite E.
    + destruct (barModel s); [|exact IH].
      destruct (lineModel s); [|exact IH].
      cbn [final]. now apply drawn_keeps_one_line.
    + exact IH.
    + exact IH.
    + cbn [barModel lineModel set_lineModel set_barModel final].
      now apply drawn_keeps_one_line.
Qed.

(* ------------------------------------------------------------------ *)
(** ** The guard of setViewModel *)

Lemma guard_throws_on_empty_categories options s :
  empty_categories options ->
  invalid (dataViews options) s = Throw (JS.TypeError "source") s /\
  setViewModel options s = Throw (JS.TypeError "source") s.
Proof.
  intros (view & Hv & Hc).
  take_apart options; simpl in Hv; try discriminate Hv;
    injection Hv as <-; simpl in Hc; try discriminate Hc;
    split; reflexivity.
Qed.

Lemma one_measure_throws options c0 bar s :
  passes options ->
  category_column options = Some c0 ->
  value_column options 0 = Some bar ->
  value_column options 1 = None ->
  setViewModel options s =
    Throw (JS.TypeError "values")
      (set_barModel (model (cat_values c0) (val_values bar)) s).
Proof.
  intros H Hc Hb Hl. pose proof (H s) as H0. clear H.
  take_apart options; unfold category_column, value_column in *;
    unfold invalid, bind, read, ret, throw in H0; simpl in *; try discriminate.
  destruct vs as [|b [|l vs]]; simpl in *; try discriminate.
  injection Hc as <-. injection Hb as <-.
  run. reflexivity.
Qed.

Lemma view_of_passes cats cols : forall vp, passes (mkOptions (Some [view_of cats cols]) vp).
Proof. intros vp s. reflexivity. Qed.

(** C2: what the code does where the claim asks for the empty bar
    model.  With the categories an empty array, the values list and the
    metadata missing, [setViewModel] does not return the empty bar
    model: its guard throws a TypeError reading [source] off
    [categories[0]] before it looks at the values or the metadata. *)
Lemma missing_values_behind_empty_categories :
  something_missing empty_categories_options /\
  (exists view,
     the_view (dataViews empty_categories_options) = Some view /\
     values view = None) /\
  setViewModel empty_categories_options constructor
    = Throw (JS.TypeError "source") constructor /\
  setViewModel empty_categories_options constructor
    <> Normal (Some empty_model) constructor.
Proof.
  split; [|split; [|split]].
  - simpl. left. reflexivity.
  - eexists. split; reflexivity.
  - reflexivity.
  - discriminate.
Qed.

(** The operands of the guard that do not throw: whenever the data
    views, their first element, its categorical section, its categories,
    the source of its first category column, its values list or its
    metadata is missing, and the categories are not an empty array,
    [setViewModel] returns its local bar model (no points, maxValue 0)
    and the instance is as it was. *)
Theorem setViewModel_returns_empty_model options s :
  something_missing options ->
  ~ empty_categories options ->
  setViewModel options s = Normal (Some (mkModel [] (JS.Num (JS.Fin 0)))) s /\
  barModel (final (setViewModel options s)) = barModel s /\
  lineModel (final (setViewModel options s)) = lineModel s.
Proof.
  intros Hm Hne.
  assert (E : setViewModel options s = Normal (Some empty_model) s).
  { take_apart options; try reflexivity.
    - exfalso. apply Hne. eexists. split; reflexivity.
    - exfalso. apply Hne. eexists. split; reflexivity.
    - exfalso. apply Hne. eexists. split; reflexivity.
    - exfalso. apply Hne. eexists. split; reflexivity.
    - exfalso. simpl in Hm.
      destruct Hm as [Hm|[Hm|[Hm|(c & cs' & Hm & Hs)]]]; try discriminate.
      injection Hm as <- <-. discriminate. }
  rewrite E. repeat split.
Qed.

Lemma setViewModel_returns_empty_model_witness :
  setViewModel no_categorical_options constructor
    = Normal (Some (mkModel [] (JS.Num (JS.Fin 0)))) constructor /\
  barModel (final (setViewModel no_categorical_options constructor))
    = barModel constructor /\
  lineModel (final (setViewModel no_categorical_options constructor))
    = lineModel constructor.
Proof.
  apply (setViewModel_returns_empty_model no_categorical_options constructor).
  - simpl. right. exact I.
  - intros (view & Hv & Hc). simpl in Hv. discriminate Hv.
Defined.

(** C9: there is a data view whose categories are present and an empty
    array on which [setViewModel] throws a TypeError from its guard,
    reading [source] off [categories[0]], and does not return the empty
    bar model. *)
Theorem setViewModel_throws_on_empty_categories :
  exists options view,
    the_view (dataViews options) = Some view /\
    categories view = Some [] /\
    forall s,
      invalid (dataViews options) s = Throw (JS.TypeError "source") s /\
      setViewModel options s = Throw (JS.TypeError "source") s /\
      setViewModel options s <> Normal (Some empty_model) s.
Proof.
  exists empty_categories_options. eexists.
  split; [reflexivity|]. split; [reflexivity|].
  intro s.
  destruct (guard_throws_on_empty_categories empty_categories_options s)
    as (Hg & Hs).
  - eexists. split; reflexivity.
  - rewrite Hs. repeat split; auto. discriminate.
Qed.

(** C10: there is a data view that passes the guard and has one measure
    column on which [setViewModel] throws a TypeError reading [values]
    off the second column, after it stored the rebuilt bar model: the
    instance is left with the new bar model and the line model it had. *)
Theorem setViewModel_throws_on_one_measure :
  exists options c0 bar view,
    passes options /\
    category_column options = Some c0 /\
    the_view (dataViews options) = Some view /\
    values view = Some [bar] /\
    forall s,
      exists s',
        setViewModel options s = Throw (JS.TypeError "values") s' /\
        barModel s' = Some (model (cat_values c0) (val_values bar)) /\
        lineModel s' = lineModel s.
Proof.
  exists one_measure_options. do 3 eexists.
  split; [apply view_of_passes|].
  split; [reflexivity|]. split; [reflexivity|]. split; [reflexivity|].
  intro s. eexists. split.
  - apply one_measure_throws; try reflexivity. apply view_of_passes.
  - split; reflexivity.
Qed.

(* ------------------------------------------------------------------ *)
(** ** The models of a data view that passes the guard *)

(** The bar model is stored as soon as the bar column is there, whether
    or not the line column is. *)
Lemma bar_model_stored options c0 bar s :
  passes options ->
  category_column options = Some c0 ->
  value_column options 0 = Some bar ->
  barModel (final (setViewModel options s))
    = Some (model (cat_values c0) (val_values bar)).
Proof.
  intros H Hc Hb.
  destruct (value_column options 1) as [line|] eqn:Hl.
  - now rewrite (setViewModel_builds options c0 bar line s).
  - now rewrite (one_measure_throws options c0 bar s).
Qed.

(** C4: for a data view that passes the guard, each series model has as
    many points as the longer of the categories and that series' values,
    the point at [i] is made of [categories[i]] and [values[i]], a field
    is [undefined] past the end of its array, and with both measure
    columns the method returns normally whatever the lengths are. *)
Theorem setViewModel_points options c0 bar s :
  passes options ->
  category_column options = Some c0 ->
  value_column options 0 = Some bar ->
  (exists bm,
      barModel (final (setViewModel options s)) = Some bm /\
      series_of (cat_values c0) (val_values bar) bm) /\
  (forall line,
      value_column options 1 = Some line ->
      exists lm s',
        setViewModel options s = Normal None s' /\
        lineModel s' = Some lm /\
        series_of (cat_values c0) (val_values line) lm).
Proof.
  intros H Hc Hb. split.
  - eexists. split; [apply (bar_model_stored options c0 bar); assumption|].
    apply model_series_of.
  - intros line Hl.
    do 2 eexists. split; [apply setViewModel_builds; eassumption|].
    split; [reflexivity | apply model_series_of].
Qed.

Lemma setViewModel_points_witness :
  (exists bm,
      barModel (final (setViewModel mismatch_options constructor)) = Some bm /\
      series_of (cat_values abc_categories) (val_values short_bars) bm) /\
  (forall line,
      value_column mismatch_options 1 = Some line ->
      exists lm s',
        setViewModel mismatch_options constructor = Normal None s' /\
        lineModel s' = Some lm /\
        series_of (cat_values abc_categories) (val_values line) lm).
Proof.
  apply (setViewModel_points mismatch_options abc_categories short_bars
           constructor);
    [intro s; reflexivity | reflexivity ..].
Defined.

(** C5: for every model built from a data view that passes the guard,
    when the points are not empty maxValue is their true maximum (the
    largest number a point carries, [undefined], [null] and [NaN] being
    passed over; [undefined] when no point carries a number), and when
    there are no points maxValue is [undefined]. *)
Theorem setViewModel_maxValue options c0 bar s :
  passes options ->
  category_column options = Some c0 ->
  value_column options 0 = Some bar ->
  (exists bm,
      barModel (final (setViewModel options s)) = Some bm /\
      (dataPoints bm <> [] -> true_maximum (dataPoints bm) (maxValue bm)) /\
      (dataPoints bm = [] -> maxValue bm = JS.Undefined)) /\
  (forall line,
      value_column options 1 = Some line ->
      exists lm,
        lineModel (final (setViewModel options s)) = Some lm /\
        (dataPoints lm <> [] -> true_maximum (dataPoints lm) (maxValue lm)) /\
        (dataPoints lm = [] -> maxValue lm = JS.Undefined)).
Proof.
  intros H Hc Hb. split.
  - eexists. split; [apply (bar_model_stored options c0 bar); assumption|].
    split; [intros _; apply model_true_maximum | apply model_empty].
  - intros line Hl. eexists.
    rewrite (setViewModel_builds options c0 bar line s) by assumption.
    split; [reflexivity|].
    split; [intros _; apply model_true_maximum | apply model_empty].
Qed.

Lemma setViewModel_maxValue_witness :
  (exists bm,
      barModel (final (setViewModel abc_options constructor)) = Some bm /\
      (dataPoints bm <> [] -> true_maximum (dataPoints bm) (maxValue bm)) /\
      (dataPoints bm = [] -> maxValue bm = JS.Undefined)) /\
  (forall line,
      value_column abc_options 1 = Some line ->
      exists lm,
        lineModel (final (setViewModel abc_options constructor)) = Some lm /\
        (dataPoints lm <> [] -> true_maximum (dataPoints lm) (maxValue lm)) /\
        (dataPoints lm = [] -> maxValue lm = JS.Undefined)).
Proof.
  apply (setViewModel_maxValue abc_options abc_categories abc_bars constructor);
    [intro s; reflexivity | reflexivity ..].
Defined.

(** Both models built: [update] goes on to draw them. *)
Lemma update_builds options c0 bar line s :
  passes options ->
  category_column options = Some c0 ->
  value_column options 0 = Some bar ->
  value_column options 1 = Some line ->
  let bm := model (cat_values c0) (val_values bar) in
  let lm := model (cat_values c0) (val_values line) in
  update options s =
    Normal tt (drawn options bm lm (set_lineModel lm (set_barModel bm s))).
Proof.
  intros H Hc Hb Hl bm lm.
  rewrite update_unfold.
  rewrite (setViewModel_builds options c0 bar line s H Hc Hb Hl).
  reflexivity.
Qed.

Lemma points_category_agree cats vals vals' i p q :
  nth_error (points cats vals) i = Some p ->
  nth_error (points cats vals') i = Some q ->
  category p = category q.
Proof.
  intros Hp Hq.
  assert (Hi : i < length (points cats vals))
    by (apply nth_error_Some; congruence).
  assert (Hj : i < length (points cats vals'))
    by (apply nth_error_Some; congruence).
  rewrite points_length in Hi, Hj.
  rewrite points_nth in Hp, Hq by assumption.
  injection Hp as <-. injection Hq as <-. reflexivity.
Qed.

(** C6: after an update that rebuilds both models, the bar point and
    the line point at an index where both exist have the same category;
    and when the categories, the bar values and the line values all have
    length [k], both models have exactly [k] points. *)
Theorem update_aligns_categories options c0 bar line s :
  passes options ->
  category_column options = Some c0 ->
  value_column options 0 = Some bar ->
  value_column options 1 = Some line ->
  exists bm lm s',
    update options s = Normal tt s' /\
    barModel s' = Some bm /\
    lineModel s' = Some lm /\
    (forall i p q,
        nth_error (dataPoints bm) i = Some p ->
        nth_error (dataPoints lm) i = Some q ->
        category p = category q) /\
    (forall k,
        length (cat_values c0) = k ->
        length (val_values bar) = k ->
        length (val_values line) = k ->
        length (dataPoints bm) = k /\ length (dataPoints lm) = k).
Proof.
  intros H Hc Hb Hl.
  do 3 eexists. split; [apply (update_builds options c0 bar line); assumption|].
  split; [reflexivity|]. split; [reflexivity|].
  split.
  - intros i p q. apply points_category_agree.
  - intros k Hk Hkb Hkl. simpl. rewrite !points_length. lia.
Qed.

Lemma update_aligns_categories_witness :
  exists bm lm s',
    update abc_options constructor = Normal tt s' /\
    barModel s' = Some bm /\
    lineModel s' = Some lm /\
    (forall i p q,
        nth_error (dataPoints bm) i = Some p ->
        nth_error (dataPoints lm) i = Some q ->
        category p = category q) /\
    (forall k,
        length (cat_values abc_categories) = k ->
        length (val_values abc_bars) = k ->
        length (val_values abc_line) = k ->
        length (dataPoints bm) = k /\ length (dataPoints lm) = k).
Proof.
  apply (update_aligns_categories abc_options abc_categories abc_bars abc_line
           constructor); [intro s; reflexivity | reflexivity ..].
Defined.

(* ------------------------------------------------------------------ *)
(** ** The geometry of the bars *)

Lemma Fin_sub a b : JS.sub (JS.Fin a) (JS.Fin b) = JS.Fin (a - b).
Proof. reflexivity. Qed.

(** The left scale sends 0 to the bottom of its range. *)
Lemma apply_linear_zero (M r0 r1 : Qc) :
  D3.apply_linear (D3.mkLinear (JS.Fin 0, JS.Fin M) (JS.Fin r0, JS.Fin r1))
    (JS.Num (JS.Fin 0)) = JS.Fin r0.
Proof.
  unfold D3.apply_linear, D3.uninterpolateNumber, D3.interpolateNumber.
  cbn [fst snd D3.lin_domain D3.lin_range JS.ToNumber].
  rewrite !Fin_sub.
  destruct (M - 0 ?= 0)%Qc eqn:Hc;
    unfold JS.div, JS.add, JS.mul, JS.sub, JS.lift2; f_equal;
    try (apply Qceq_alt in Hc); try ring.
  - field. intro H0. rewrite H0 in Hc. discriminate Hc.
  - field. intro H0. rewrite H0 in Hc. discriminate Hc.
Qed.

(** It sends a maxValue other than 0 to the top of its range. *)
Lemma apply_linear_max (M r0 r1 : Qc) :
  M <> 0%Qc ->
  D3.apply_linear (D3.mkLinear (JS.Fin 0, JS.Fin M) (JS.Fin r0, JS.Fin r1))
    (JS.Num (JS.Fin M)) = JS.Fin r1.
Proof.
  intro HM.
  assert (HM0 : (M - 0)%Qc <> 0%Qc) by (intro H0; apply HM; rewrite <- H0; ring).
  unfold D3.apply_linear, D3.uninterpolateNumber, D3.interpolateNumber.
  cbn [fst snd D3.lin_domain D3.lin_range JS.ToNumber].
  rewrite !Fin_sub.
  destruct (M - 0 ?= 0)%Qc eqn:Hc.
  - apply Qceq_alt in Hc. contradiction.
  - unfold JS.div, JS.add, JS.mul, JS.sub, JS.lift2; f_equal. now field.
  - unfold JS.div, JS.add, JS.mul, JS.sub, JS.lift2; f_equal. now field.
Qed.

(** A domain of width zero sends every number to the bottom of the range. *)
Lemma apply_linear_flat (v r0 r1 : Qc) :
  D3.apply_linear (D3.mkLinear (JS.Fin 0, JS.Fin 0) (JS.Fin r0, JS.Fin r1))
    (JS.Num (JS.Fin v)) = JS.Fin r0.
Proof.
  unfold D3.apply_linear, D3.uninterpolateNumber, D3.interpolateNumber.
  cbn [fst snd D3.lin_domain D3.lin_range JS.ToNumber].
  rewrite !Fin_sub.
  replace (0 - 0)%Qc with 0%Qc by ring.
  rewrite (proj1 (Qceq_alt 0 0) eq_refl).
  unfold JS.add, JS.mul, JS.sub, JS.lift2. f_equal. ring.
Qed.

Lemma update_returns_inv options s s' :
  update options s = Normal tt s' ->
  exists r s1 bm lm,
    setViewModel options s = Normal r s1 /\
    barModel s1 = Some bm /\ lineModel s1 = Some lm /\
    s' = drawn options bm lm s1.
Proof.
  rewrite update_unfold.
  destruct (setViewModel options s) as [r s1|e s1]; [|discriminate].
  destruct (barModel s1) as [bm|] eqn:Hb; [|discriminate].
  destruct (lineModel s1) as [lm|] eqn:Hl; [|discriminate].
  intro H. injection H as <-. exists r, s1, bm, lm. auto.
Qed.

(** [setViewModel] touches no element. *)
Lemma setViewModel_keeps_lines options s r s1 :
  setViewModel options s = Normal r s1 -> lineGroup s1 = lineGroup s.
Proof.
  destruct (setViewModel_cases options)
    as [E|[(e & E)|[(e & bm & E)|(bm & lm & E)]]]; rewrite E;
    intro H; try discriminate H; injection H as <- <-; reflexivity.
Qed.

(** C7, as stated, fails when the largest bar value is 0: the bar of
    value 0 = maxValue has height 0, not the viewport height less the
    top and bottom padding (300 - 30 - 50). *)
Lemma zero_bar_is_flat :
  exists s' bm r,
    update zero_options constructor = Normal tt s' /\
    barModel s' = Some bm /\
    barGroup s' = [r] /\
    value (rect_data r) = JS.Num (JS.Fin 0) /\
    maxValue bm = JS.Num (JS.Fin 0) /\
    rect_y r = Some (D3.apply_linear (yScale zero_options bm) (value (rect_data r))) /\
    rect_height r = Some (JS.Fin 0) /\
    rect_height r <>
      Some (JS.sub (JS.sub (height (viewport zero_options))
                           (top (padding settings)))
                   (bottom (padding settings))).
Proof.
  do 3 eexists.
  split; [vm_compute; reflexivity|].
  split; [vm_compute; reflexivity|].
  split; [vm_compute; reflexivity|].
  split; [apply (f_equal JS.Num), (f_equal JS.Fin), Qc_is_canon; reflexivity|].
  split; [apply (f_equal JS.Num), (f_equal JS.Fin), Qc_is_canon; reflexivity|].
  split; [vm_compute; reflexivity|].
  split.
  - apply (f_equal Some), (f_equal JS.Fin), Qc_is_canon. reflexivity.
  - intro H. apply (f_equal as_Q) in H. vm_compute in H. discriminate H.
Qed.

(** C7 (amended): every rect [update] leaves in the bar group is bound
    to a point of the stored bar model; its width is the band width of
    the horizontal scale, its x is the horizontal scale at the point's
    category, its y is the left scale at the point's value [v], and its
    height is the viewport height less the left scale at [v] less the
    bottom padding.  For a viewport height that is a number and a
    maxValue that is a number: a value of 0 gives height 0, and, when
    maxValue is not 0, a value of maxValue gives the viewport height
    less the top padding (30) and the bottom padding (50). *)
Theorem bar_geometry options s s' r bm h M :
  update options s = Normal tt s' ->
  In r (barGroup s') ->
  barModel s' = Some bm ->
  height (viewport options) = JS.Fin h ->
  maxValue bm = JS.Num (JS.Fin M) ->
  let d := rect_data r in
  let horizontalScale := D3.apply_ordinal (xScale options bm) in
  let leftScale := D3.apply_linear (yScale options bm) in
  let viewportHeight := height (viewport options) in
  let topPadding := top (padding settings) in
  let bottomPadding := bottom (padding settings) in
  In d (dataPoints bm) /\
  rect_width r = Some (D3.ord_rangeBand (xScale options bm)) /\
  rect_x r = horizontalScale (category d) /\
  rect_y r = Some (leftScale (value d)) /\
  rect_height r =
    Some (JS.sub (JS.sub viewportHeight (leftScale (value d))) bottomPadding) /\
  (value d = JS.Num (JS.Fin 0) -> rect_height r = Some (JS.Fin 0)) /\
  (M <> 0%Qc -> value d = JS.Num (JS.Fin M) ->
   rect_height r =
     Some (JS.sub (JS.sub viewportHeight topPadding) bottomPadding)) /\
  topPadding = JS.of_Z 30 /\ bottomPadding = JS.of_Z 50.
Proof.
  intros Hu Hr Hbm Hh HM.
  destruct (update_returns_inv _ _ _ Hu) as (r0 & s1 & bm' & lm & _ & Hb1 & Hl1 & ->).
  cbn [drawn barModel] in Hbm. rewrite Hb1 in Hbm. injection Hbm as ->.
  cbn [drawn barGroup] in Hr. rewrite draw_bars_closed in Hr.
  apply in_map_iff in Hr. destruct Hr as (d & <- & Hd).
  cbn zeta. cbn [bar_attr append_rect rect_data rect_width rect_x rect_y rect_height].
  repeat split; auto.
  - intro Hv. rewrite Hv. unfold yScale, D3.linear. rewrite HM, Hh.
    cbn [JS.ToNumber]. unfold settings at 1 2. cbn [padding bottom top].
    unfold JS.of_Z at 1 2. rewrite Fin_sub, apply_linear_zero.
    unfold settings, JS.of_Z. cbn [padding bottom]. rewrite !Fin_sub.
    do 2 f_equal. ring.
  - intros HM0 Hv. rewrite Hv. unfold yScale, D3.linear. rewrite HM, Hh.
    cbn [JS.ToNumber]. unfold settings at 1 2. cbn [padding bottom top].
    unfold JS.of_Z at 1 2. rewrite Fin_sub, apply_linear_max by exact HM0.
    reflexivity.
Qed.

Lemma bar_geometry_witness :
  let options := zero_five_options in
  let r := five_bar in
  let bm := zero_five_bars in
  let d := rect_data r in
  let horizontalScale := D3.apply_ordinal (xScale options bm) in
  let leftScale := D3.apply_linear (yScale options bm) in
  let viewportHeight := height (viewport options) in
  let topPadding := top (padding settings) in
  let bottomPadding := bottom (padding settings) in
  In d (dataPoints bm) /\
  rect_width r = Some (D3.ord_rangeBand (xScale options bm)) /\
  rect_x r = horizontalScale (category d) /\
  rect_y r = Some (leftScale (value d)) /\
  rect_height r =
    Some (JS.sub (JS.sub viewportHeight (leftScale (value d))) bottomPadding) /\
  (value d = JS.Num (JS.Fin 0) -> rect_height r = Some (JS.Fin 0)) /\
  (Q2Qc (inject_Z 5) <> 0%Qc -> value d = JS.Num (JS.Fin (Q2Qc (inject_Z 5))) ->
   rect_height r =
     Some (JS.sub (JS.sub viewportHeight topPadding) bottomPadding)) /\
  topPadding = JS.of_Z 30 /\ bottomPadding = JS.of_Z 50.
Proof.
  apply (bar_geometry zero_five_options constructor zero_five_drawn five_bar
           zero_five_bars (Q2Qc (inject_Z 300)) (Q2Qc (inject_Z 5))).
  - vm_compute. reflexivity.
  - vm_compute. right. left. reflexivity.
  - vm_compute. reflexivity.
  - reflexivity.
  - vm_compute. reflexivity.
Defined.

(* ------------------------------------------------------------------ *)
(** ** Updating twice *)

Lemma drawn_models options bm lm s :
  barModel (drawn options bm lm s) = barModel s /\
  lineModel (drawn options bm lm s) = lineModel s.
Proof. split; reflexivity. Qed.

(** C8: on an instance a host can hold, a second [update] with the same
    data view and viewport completes the way the first did and leaves
    the instance the first left: the same svg size, axes, rects and
    path, with the same attributes.  When the first returns, the bar
    group holds one rect for each point of the stored bar model, the
    line group holds one path, and each axis group holds its axis. *)
Theorem update_twice options s :
  reachable s ->
  update options (final (update options s)) = update options s /\
  forall s',
    update options s = Normal tt s' ->
    update options s' = Normal tt s' /\
    (exists bm, barModel s' = Some bm /\
                length (barGroup s') = length (dataPoints bm)) /\
    length (lineGroup s') = 1 /\
    ag_axis (xAxisGroup s') <> None /\
    ag_axis (yAxisGroupLeft s') <> None /\
    ag_axis (yAxisGroupRight s') <> None.
Proof.
  intro Hs. apply reachable_one_line in Hs.
  assert (Htwice : update options (final (update options s)) = update options s).
  { rewrite (update_unfold options s).
    destruct (setViewModel_cases options)
      as [E|[(e & E)|[(e & bm & E)|(bm & lm & E)]]]; rewrite E.
    - destruct (barModel s) as [bm|] eqn:Hb;
        [destruct (lineModel s) as [lm|] eqn:Hl|]; cbn [final];
        rewrite update_unfold, E.
      + destruct (drawn_models options bm lm s) as (-> & ->).
        rewrite Hb, Hl. now rewrite drawn_twice.
      + now rewrite Hb, Hl.
      + now rewrite Hb.
    - cbn [final]. now rewrite update_unfold, E.
    - cbn [final]. now rewrite update_unfold, E.
    - cbn [barModel lineModel set_lineModel set_barModel final].
      rewrite update_unfold, E.
      cbn [barModel lineModel set_lineModel set_barModel].
      f_equal.
      set (s1 := set_lineModel lm (set_barModel bm s)).
      change (set_lineModel lm (set_barModel bm (drawn options bm lm s1)))
        with (drawn options bm lm s1).
      apply drawn_twice. exact Hs. }
  split; [exact Htwice|].
  intros s' Hu. rewrite Hu in Htwice. cbn [final] in Htwice.
  split; [exact Htwice|].
  destruct (update_returns_inv _ _ _ Hu) as (r & s1 & bm & lm & Hsv & Hb & Hl & ->).
  split; [|split; [|repeat split; discriminate]].
  - exists bm. split; [exact Hb|].
    cbn [drawn barGroup]. now rewrite draw_bars_closed, length_map.
  - apply drawn_one_line. unfold one_line.
    now rewrite (setViewModel_keeps_lines _ _ _ _ Hsv).
Qed.

Lemma update_twice_witness :
  let options := abc_options in
  let s := final (update zero_options constructor) in
  update options (final (update options s)) = update options s /\
  forall s',
    update options s = Normal tt s' ->
    update options s' = Normal tt s' /\
    (exists bm, barModel s' = Some bm /\
                length (barGroup s') = length (dataPoints bm)) /\
    length (lineGroup s') = 1 /\
    ag_axis (xAxisGroup s') <> None /\
    ag_axis (yAxisGroupLeft s') <> None /\
    ag_axis (yAxisGroupRight s') <> None.
Proof.
  apply (update_twice abc_options (final (update zero_options constructor))).
  apply reach_update. apply reach_constructor.
Defined.

(* ------------------------------------------------------------------ *)
(** ** What update stores *)

(** C3, as stated, fails: after A, B, C were drawn, an update with a
    data view without a categorical section returns with the bar model
    and the line model of A, B, C still stored, and their three bars
    still drawn; on the constructed instance the same update leaves no
    model at all. *)
Lemma update_keeps_earlier_models :
  exists s2,
    update no_categorical_options abc_drawn = Normal tt s2 /\
    barModel s2 = Some (model ["A"; "B"; "C"]%string [n 1; n 5; n 2]) /\
    lineModel s2 = Some (model ["A"; "B"; "C"]%string [n 3; n 1; n 4]) /\
    length (barGroup s2) = 3 /\
    barModel (final (update no_categorical_options constructor)) = None /\
    lineModel (final (update no_categorical_options constructor)) = None.
Proof.
  eexists. split; [vm_compute; reflexivity|].
  repeat split; vm_compute; reflexivity.
Qed.

(** C3 (amended): every call to [update] with a data view that passes
    the guard and has its two measure columns replaces both stored
    models, whatever they were, by the models of that data view, draws
    the bars of the new bar model and returns. *)
Theorem update_replaces_models options c0 bar line s :
  passes options ->
  category_column options = Some c0 ->
  value_column options 0 = Some bar ->
  value_column options 1 = Some line ->
  exists s',
    update options s = Normal tt s' /\
    barModel s' = Some (model (cat_values c0) (val_values bar)) /\
    lineModel s' = Some (model (cat_values c0) (val_values line)) /\
    map rect_data (barGroup s') =
      dataPoints (model (cat_values c0) (val_values bar)) /\
    length (lineGroup s') = S (length (lineGroup s) - 1).
Proof.
  intros H Hc Hb Hl.
  eexists. split; [apply (update_builds options c0 bar line); assumption|].
  split; [reflexivity|]. split; [reflexivity|]. split.
  - cbn [drawn barGroup]. rewrite draw_bars_closed, map_map. apply map_id.
  - cbn [drawn lineGroup set_lineModel set_barModel].
    rewrite length_app. simpl. destruct (lineGroup s); simpl; lia.
Qed.

Lemma update_replaces_models_witness :
  exists s',
    update abc_options abc_drawn = Normal tt s' /\
    barModel s' = Some (model (cat_values abc_categories) (val_values abc_bars)) /\
    lineModel s' = Some (model (cat_values abc_categories) (val_values abc_line)) /\
    map rect_data (barGroup s') =
      dataPoints (model (cat_values abc_categories) (val_values abc_bars)) /\
    length (lineGroup s') = S (length (lineGroup abc_drawn) - 1).
Proof.
  apply (update_replaces_models abc_options abc_categories abc_bars abc_line
           abc_drawn); [intro s; reflexivity | reflexivity ..].
Defined.

(* ------------------------------------------------------------------ *)
(** ** update on a data view that the guard turns away *)

(** An update that the guard turns away draws the models stored before,
    and throws when one of them was never stored. *)
Lemma update_turned_away options s :
  setViewModel options s = Normal (Some empty_model) s ->
  update options s =
    match barModel s, lineModel s with
    | Some bm, Some lm => Normal tt (drawn options bm lm s)
    | Some _, None => Throw (JS.TypeError "maxValue") s
    | None, _ => Throw (JS.TypeError "dataPoints") s
    end.
Proof.
  intro E. rewrite update_unfold, E.
  destruct (barModel s); [destruct (lineModel s)|]; reflexivity.
Qed.

(** C1: what the code does where the claim asks for no exception, the
    empty bar model and zero bars.  On the constructed instance, an
    update with a data view without a categorical section has
    [setViewModel] return the empty bar model, which is dropped, and
    then throws a TypeError reading [dataPoints] off the bar model that
    was never stored.  After A, B, C were drawn, the same update returns
    and leaves the three bars of A, B, C. *)
Theorem update_without_categorical :
  setViewModel no_categorical_options constructor
    = Normal (Some (mkModel [] (JS.Num (JS.Fin 0)))) constructor /\
  update no_categorical_options constructor
    = Throw (JS.TypeError "dataPoints") constructor /\
  exists s',
    update no_categorical_options abc_drawn = Normal tt s' /\
    barModel s' = barModel abc_drawn /\
    map (fun r => category (rect_data r)) (barGroup s')
      = [Some "A"; Some "B"; Some "C"]%string.
Proof.
  split; [reflexivity|]. split; [reflexivity|].
  eexists. split; [vm_compute; reflexivity|].
  split; vm_compute; reflexivity.
Qed.

(* ------------------------------------------------------------------ *)
(** ** The guard, completely *)

Ltac not_empty :=
  let view := fresh "view" in
  let Hv := fresh "Hv" in
  let Hc := fresh "Hc" in
  intros (view & Hv & Hc); simpl in Hv; try discriminate Hv;
  injection Hv as <-; simpl in Hc; discriminate Hc.

Ltac is_missing :=
  unfold something_missing; simpl;
  solve [ exact I | left; reflexivity | right; exact I
        | right; left; reflexivity | right; right; left; reflexivity
        | right; right; right; do 2 eexists; split; reflexivity ].

Ltac not_missing :=
  let H := fresh "H" in
  let H' := fresh "H" in
  unfold something_missing; simpl;
  intros [H|[H|[H|(? & ? & H & H')]]]; try discriminate H;
  injection H as <- <-; discriminate H'.

(** The three ways the guard can go, read off the data view. *)
Lemma invalid_cases options s :
  (empty_categories options /\
   invalid (dataViews options) s = Throw (JS.TypeError "source") s) \/
  (~ empty_categories options /\ something_missing options /\
   invalid (dataViews options) s = Normal true s) \/
  (~ empty_categories options /\ ~ something_missing options /\
   invalid (dataViews options) s = Normal false s).
Proof.
  take_apart options;
    first
      [ left; split; [eexists; split; reflexivity | reflexivity]
      | right; left; split; [not_empty | split; [is_missing | reflexivity]]
      | right; right; split; [not_empty | split; [not_missing | reflexivity]] ].
Qed.

Lemma setViewModel_after_guard options s :
  match invalid (dataViews options) s with
  | Throw e s' => setViewModel options s = Throw e s'
  | Normal true s' => setViewModel options s = Normal (Some empty_model) s'
  | Normal false _ => True
  end.
Proof.
  unfold setViewModel, bind.
  destruct (invalid (dataViews options) s) as [[|] s'|e s']; auto.
Qed.

Lemma passes_category options :
  passes options -> exists c0, category_column options = Some c0.
Proof.
  intro H. pose proof (H constructor) as H0. clear H.
  take_apart options; unfold category_column, invalid, bind, read, ret, throw in *;
    simpl in *; try discriminate H0.
  eexists. reflexivity.
Qed.

Lemma guard_ok options :
  ~ something_missing options -> ~ empty_categories options -> passes options.
Proof.
  intros Hm He s.
  destruct (invalid_cases options s)
    as [(He' & E)|[(He' & Hm' & E)|(He' & Hm' & E)]];
    try contradiction. exact E.
Qed.

(** X1: the guard lets a data view through exactly when nothing it asks
    for is missing and the categories are not an empty array. *)
Theorem guard_passes_iff options :
  passes options <->
  ~ something_missing options /\ ~ empty_categories options.
Proof.
  split.
  - intro H.
    destruct (invalid_cases options constructor)
      as [(He & E)|[(He & Hm & E)|(He & Hm & E)]];
      rewrite (H constructor) in E; try discriminate E. auto.
  - intros (Hm & He). now apply guard_ok.
Qed.

Lemma no_measure_throws options s :
  passes options ->
  value_column options 0 = None ->
  setViewModel options s = Throw (JS.TypeError "values") s.
Proof.
  intros H Hb. pose proof (H s) as H0. clear H.
  take_apart options; unfold value_column in *;
    unfold invalid, bind, read, ret, throw in H0; simpl in *; try discriminate.
  destruct vs as [|b vs]; simpl in *; try discriminate.
  reflexivity.
Qed.

(** X2: on a data view that passes the guard without any measure
    column, [setViewModel] throws a TypeError reading [values] off the
    missing bar column, and [update] with it; nothing has been stored or
    drawn. *)
Theorem update_without_measures options s :
  passes options ->
  value_column options 0 = None ->
  setViewModel options s = Throw (JS.TypeError "values") s /\
  update options s = Throw (JS.TypeError "values") s.
Proof.
  intros H Hb.
  assert (E := no_measure_throws options s H Hb).
  split; [exact E|]. now rewrite update_unfold, E.
Qed.

Lemma update_without_measures_witness :
  setViewModel no_measure_options abc_drawn
    = Throw (JS.TypeError "values") abc_drawn /\
  update no_measure_options abc_drawn
    = Throw (JS.TypeError "values") abc_drawn.
Proof.
  apply (update_without_measures no_measure_options abc_drawn);
    [intro s; reflexivity | reflexivity].
Defined.

(* ------------------------------------------------------------------ *)
(** ** When update throws *)

(** X3: when [update] throws it has drawn nothing: the svg size, the
    three axis groups, the bar group and the line group are as they
    were, and so is the line model; the bar model alone may have been
    replaced. *)
Theorem update_throws_before_drawing options s e s' :
  update options s = Throw e s' ->
  svg s' = svg s /\
  xAxisGroup s' = xAxisGroup s /\
  yAxisGroupLeft s' = yAxisGroupLeft s /\
  yAxisGroupRight s' = yAxisGroupRight s /\
  barGroup s' = barGroup s /\
  lineGroup s' = lineGroup s /\
  lineModel s' = lineModel s.
Proof.
  rewrite update_unfold.
  destruct (setViewModel_cases options)
    as [E|[(e0 & E)|[(e0 & bm & E)|(bm & lm & E)]]]; rewrite E.
  - destruct (barModel s) eqn:Hb; [destruct (lineModel s) eqn:Hl|]; intro H;
      try discriminate H; injection H as _ Hs; subst s'; repeat split; congruence.
  - intro H. injection H as _ Hs. subst s'. repeat split; reflexivity.
  - intro H. injection H as _ Hs. subst s'. repeat split; reflexivity.
  - cbn [barModel lineModel set_lineModel set_barModel]. discriminate.
Qed.

Lemma update_throws_before_drawing_witness :
  svg half_built = svg constructor /\
  xAxisGroup half_built = xAxisGroup constructor /\
  yAxisGroupLeft half_built = yAxisGroupLeft constructor /\
  yAxisGroupRight half_built = yAxisGroupRight constructor /\
  barGroup half_built = barGroup constructor /\
  lineGroup half_built = lineGroup constructor /\
  lineModel half_built = lineModel constructor.
Proof.
  apply (update_throws_before_drawing one_measure_options constructor
           (JS.TypeError "values") half_built).
  reflexivity.
Defined.

(** X4: the first [update] of a constructed instance returns exactly
    when the data view passes the guard and has its bar column and its
    line column; in every other case it throws. *)
Theorem first_update_returns_iff options :
  (exists s', update options constructor = Normal tt s') <->
  passes options /\
  value_column options 0 <> None /\
  value_column options 1 <> None.
Proof.
  split.
  - intros (s' & Hu).
    destruct (update_returns_inv _ _ _ Hu) as (r & s1 & bm & lm & Hsv & Hb & Hl & _).
    pose proof (setViewModel_after_guard options constructor) as Hg.
    destruct (invalid_cases options constructor)
      as [(He & E)|[(He & Hm & E)|(He & Hm & E)]]; rewrite E in Hg.
    + rewrite Hg in Hsv. discriminate Hsv.
    + rewrite Hg in Hsv. injection Hsv as _ <-. discriminate Hb.
    + assert (Hp : passes options) by (apply guard_ok; auto).
      split; [exact Hp|].
      destruct (passes_category options Hp) as (c0 & Hc).
      destruct (value_column options 0) as [bar|] eqn:Hbar.
      * split; [discriminate|].
        destruct (value_column options 1) as [line|] eqn:Hline; [discriminate|].
        rewrite (one_measure_throws options c0 bar constructor Hp Hc Hbar Hline) in Hsv.
        discriminate Hsv.
      * rewrite (no_measure_throws options constructor Hp Hbar) in Hsv.
        discriminate Hsv.
  - intros (Hp & Hb & Hl).
    destruct (passes_category options Hp) as (c0 & Hc).
    destruct (value_column options 0) as [bar|] eqn:Hbar; [|contradiction].
    destruct (value_column options 1) as [line|] eqn:Hline; [|contradiction].
    eexists. apply (update_builds options c0 bar line); assumption.
Qed.

(** X5: on an instance holding a bar model and no line model (what an
    update with the bar column alone leaves of a constructed instance),
    an update whose data view the guard turns away throws a TypeError
    reading [maxValue] off the line model, and changes nothing. *)
Theorem update_without_line_model options s bm :
  something_missing options ->
  ~ empty_categories options ->
  barModel s = Some bm ->
  lineModel s = None ->
  update options s = Throw (JS.TypeError "maxValue") s.
Proof.
  intros Hm He Hb Hl.
  pose proof (setViewModel_after_guard options s) as Hg.
  destruct (invalid_cases options s)
    as [(He' & E)|[(He' & Hm' & E)|(He' & Hm' & E)]]; try contradiction.
  rewrite E in Hg. now rewrite update_unfold, Hg, Hb, Hl.
Qed.

Lemma update_without_line_model_witness :
  update no_categorical_options half_built
    = Throw (JS.TypeError "maxValue") half_built.
Proof.
  apply (update_without_line_model no_categorical_options half_built
           (model ["A"; "B"]%string [n 1; n 5])).
  - simpl. right. exact I.
  - intros (view & Hv & Hc). simpl in Hv. discriminate Hv.
  - reflexivity.
  - reflexivity.
Defined.

(** X6: an [update] with a data view that passes the guard and has the
    bar column alone throws a TypeError reading [values] off the missing
    line column; it has stored the bar model of the new data view and
    drawn nothing, so the bars on screen are the earlier ones. *)
Theorem update_with_one_measure options c0 bar s :
  passes options ->
  category_column options = Some c0 ->
  value_column options 0 = Some bar ->
  value_column options 1 = None ->
  exists s',
    update options s = Throw (JS.TypeError "values") s' /\
    barModel s' = Some (model (cat_values c0) (val_values bar)) /\
    lineModel s' = lineModel s /\
    barGroup s' = barGroup s /\
    lineGroup s' = lineGroup s.
Proof.
  intros H Hc Hb Hl. eexists.
  rewrite update_unfold, (one_measure_throws options c0 bar s H Hc Hb Hl).
  repeat split.
Qed.

Lemma update_with_one_measure_witness :
  exists s',
    update one_measure_options abc_drawn = Throw (JS.TypeError "values") s' /\
    barModel s' =
      Some (model (cat_values (mkCategoryColumn (Some some_column) ["A"; "B"]%string))
                  (val_values (mkValueColumn [n 1; n 5]))) /\
    lineModel s' = lineModel abc_drawn /\
    barGroup s' = barGroup abc_drawn /\
    lineGroup s' = lineGroup abc_drawn.
Proof.
  apply (update_with_one_measure one_measure_options
           (mkCategoryColumn (Some some_column) ["A"; "B"]%string)
           (mkValueColumn [n 1; n 5]) abc_drawn);
    [intro s; reflexivity | reflexivity ..].
Defined.

(* ------------------------------------------------------------------ *)
(** ** The rows a model keeps *)

Lemma points_nth_past (cats : list string) (vals : list JS.val) i :
  Nat.max (length cats) (length vals) <= i ->
  nth_error (points cats vals) i = None.
Proof.
  intro H. apply nth_error_None. now rewrite points_length.
Qed.

(** X7: the points keep every row of the longer array, in order: their
    categories are the categories followed by one [undefined] for each
    value without a category, and their values are the values followed
    by one [undefined] for each category without a value. *)
Theorem points_keep_rows (cats : list string) (vals : list JS.val) :
  map category (dataPoints (model cats vals))
    = map Some cats ++ repeat None (length vals - length cats) /\
  map value (dataPoints (model cats vals))
    = vals ++ repeat JS.Undefined (length cats - length vals).
Proof.
  cbn [model dataPoints]. split; apply nth_error_ext; intro i;
    rewrite nth_error_map.
  - destruct (Nat.lt_ge_cases i (Nat.max (length cats) (length vals))) as [Hi|Hi].
    + rewrite points_nth by exact Hi. cbn [option_map category].
      destruct (Nat.lt_ge_cases i (length cats)) as [Hc|Hc].
      * rewrite nth_error_app1 by (now rewrite length_map).
        rewrite nth_error_map.
        destruct (nth_error cats i) eqn:E; [reflexivity|].
        apply nth_error_None in E. lia.
      * rewrite nth_error_app2 by (now rewrite length_map).
        rewrite length_map, nth_error_repeat by lia.
        now rewrite (proj2 (nth_error_None cats i) Hc).
    + rewrite points_nth_past by exact Hi. cbn [option_map].
      symmetry. apply nth_error_None.
      rewrite length_app, length_map, repeat_length. lia.
  - destruct (Nat.lt_ge_cases i (Nat.max (length cats) (length vals))) as [Hi|Hi].
    + rewrite points_nth by exact Hi. cbn [option_map value].
      destruct (Nat.lt_ge_cases i (length vals)) as [Hv|Hv].
      * rewrite nth_error_app1 by exact Hv. unfold at_index.
        destruct (nth_error vals i) eqn:E; [reflexivity|].
        apply nth_error_None in E. lia.
      * rewrite nth_error_app2 by exact Hv.
        rewrite nth_error_repeat by lia.
        now rewrite at_index_past.
    + rewrite points_nth_past by exact Hi. cbn [option_map].
      symmetry. apply nth_error_None.
      rewrite length_app, repeat_length. lia.
Qed.

(* ------------------------------------------------------------------ *)
(** ** What a host's instance can hold *)

Lemma setViewModel_cases_built options :
  (forall s, setViewModel options s = Normal (Some empty_model) s) \/
  (exists e, forall s, setViewModel options s = Throw e s) \/
  (exists e bm, from_a_view bm /\ forall s,
      setViewModel options s = Throw e (set_barModel bm s)) \/
  (exists bm lm, from_a_view bm /\ from_a_view lm /\ forall s,
      setViewModel options s =
        Normal None (set_lineModel lm (set_barModel bm s))).
Proof.
  take_apart options; run;
    try (left; reflexivity);
    try (right; left; eexists; reflexivity).
  destruct vs as [|b [|l vs]]; simpl.
  - right; left; eexists; reflexivity.
  - right; right; left. do 2 eexists.
    split; [do 2 eexists; reflexivity | reflexivity].
  - right; right; right. do 2 eexists.
    split; [do 2 eexists; reflexivity|].
    split; [do 2 eexists; reflexivity | reflexivity].
Qed.

Lemma reachable_models_built s : reachable s -> models_built s.
Proof.
  induction 1 as [|options s Hs (IH1 & IH2 & IH3)].
  - repeat split; simpl; intros; congruence.
  - rewrite update_unfold.
    destruct (setViewModel_cases_built options)
      as [E|[(e & E)|[(e & bm & Hbm & E)|(bm & lm & Hbm & Hlm & E)]]]; rewrite E.
    + destruct (barModel s) eqn:Hb; [destruct (lineModel s) eqn:Hl|];
        cbn [final]; repeat split; cbn [drawn barModel lineModel];
        rewrite ?Hb, ?Hl; auto; intros; congruence.
    + cbn [final]. repeat split; auto.
    + cbn [final]. repeat split; cbn [set_barModel barModel lineModel]; auto.
      * intros; congruence.
      * intros m Hm. injection Hm as <-. exact Hbm.
    + cbn [barModel lineModel set_lineModel set_barModel final].
      repeat split; cbn [drawn barModel lineModel set_lineModel set_barModel].
      * intros; congruence.
      * intros m Hm. injection Hm as <-. exact Hbm.
      * intros m Hm. injection Hm as <-. exact Hlm.
Qed.

Lemma from_a_view_not_default m : from_a_view m -> m <> empty_model.
Proof.
  intros (cats & vals & ->) H.
  unfold model, empty_model in H. injection H as Hp Hm.
  rewrite Hp in Hm. discriminate Hm.
Qed.

(** X8: on every instance a host can hold, a stored line model comes
    with a stored bar model, and every stored model has as maxValue the
    true maximum of its points; the default model (no points, maxValue
    0) both locals start as is never stored. *)
Theorem stored_models_invariant s :
  reachable s ->
  (lineModel s <> None -> barModel s <> None) /\
  (forall m,
      barModel s = Some m \/ lineModel s = Some m ->
      maxValue m = D3.max value (dataPoints m) /\
      true_maximum (dataPoints m) (maxValue m) /\
      m <> mkModel [] (JS.Num (JS.Fin 0))).
Proof.
  intro Hs. destruct (reachable_models_built s Hs) as (H1 & H2 & H3).
  split; [exact H1|].
  intros m Hm.
  assert (Hv : from_a_view m) by (destruct Hm; auto).
  split; [|split].
  - destruct Hv as (cats & vals & ->). reflexivity.
  - destruct Hv as (cats & vals & ->). apply model_true_maximum.
  - now apply from_a_view_not_default.
Qed.

Lemma stored_models_invariant_witness :
  (lineModel half_built <> None -> barModel half_built <> None) /\
  (forall m,
      barModel half_built = Some m \/ lineModel half_built = Some m ->
      maxValue m = D3.max value (dataPoints m) /\
      true_maximum (dataPoints m) (maxValue m) /\
      m <> mkModel [] (JS.Num (JS.Fin 0))).
Proof.
  apply (stored_models_invariant half_built).
  apply reach_update. apply reach_constructor.
Defined.

(* ------------------------------------------------------------------ *)
(** ** The bars an update leaves *)

(** X9: when [update] returns, the bar group holds one rect for each
    point of the stored bar model, in the order of the points and bound
    to them; each rect has the attributes a newly appended rect gets, so
    the rects that were there before leave no trace, and each is
    filled with the one bar colour. *)
Theorem bars_follow_stored_model options s s' :
  update options s = Normal tt s' ->
  exists bm,
    barModel s' = Some bm /\
    map rect_data (barGroup s') = dataPoints bm /\
    barGroup s' =
      map (fun d =>
             bar_attr (xScale options bm) (yScale options bm)
               (height (viewport options)) (append_rect d))
          (dataPoints bm) /\
    forall r, In r (barGroup s') -> rect_fill r = Some "#00c097"%string.
Proof.
  intro Hu.
  destruct (update_returns_inv _ _ _ Hu) as (r0 & s1 & bm & lm & _ & Hb & Hl & ->).
  exists bm. cbn [drawn barModel barGroup]. rewrite draw_bars_closed.
  split; [exact Hb|]. split; [|split].
  - rewrite map_map. apply map_id.
  - reflexivity.
  - intros r Hr. apply in_map_iff in Hr. destruct Hr as (d & <- & _).
    reflexivity.
Qed.

Lemma bars_follow_stored_model_witness :
  exists bm,
    barModel (final (update zero_options abc_drawn)) = Some bm /\
    map rect_data (barGroup (final (update zero_options abc_drawn)))
      = dataPoints bm /\
    barGroup (final (update zero_options abc_drawn)) =
      map (fun d =>
             bar_attr (xScale zero_options bm) (yScale zero_options bm)
               (height (viewport zero_options)) (append_rect d))
          (dataPoints bm) /\
    forall r, In r (barGroup (final (update zero_options abc_drawn))) ->
              rect_fill r = Some "#00c097"%string.
Proof.
  apply (bars_follow_stored_model zero_options abc_drawn
           (final (update zero_options abc_drawn))).
  vm_compute. reflexivity.
Defined.

(** X10: a data view that passes the guard with no row at all (no
    category, two empty measure columns) is drawn without an exception:
    both stored models have no point and an [undefined] maxValue, every
    earlier rect is removed, and the path that replaces the first
    earlier one has no [d]. *)
Theorem update_with_no_row options c0 bar line s :
  passes options ->
  category_column options = Some c0 ->
  value_column options 0 = Some bar ->
  value_column options 1 = Some line ->
  cat_values c0 = [] ->
  val_values bar = [] ->
  val_values line = [] ->
  exists s' p,
    update options s = Normal tt s' /\
    barModel s' = Some (mkModel [] JS.Undefined) /\
    lineModel s' = Some (mkModel [] JS.Undefined) /\
    barGroup s' = [] /\
    lineGroup s' = remove_first (lineGroup s) ++ [p] /\
    path_d p = None.
Proof.
  intros H Hc Hb Hl Ec Eb El.
  do 2 eexists.
  split; [apply (update_builds options c0 bar line); assumption|].
  rewrite Ec, Eb, El.
  cbn [drawn barModel lineModel barGroup lineGroup set_lineModel set_barModel].
  rewrite draw_bars_closed.
  repeat split.
Qed.

Lemma update_with_no_row_witness :
  exists s' p,
    update no_row_options abc_drawn = Normal tt s' /\
    barModel s' = Some (mkModel [] JS.Undefined) /\
    lineModel s' = Some (mkModel [] JS.Undefined) /\
    barGroup s' = [] /\
    lineGroup s' = remove_first (lineGroup abc_drawn) ++ [p] /\
    path_d p = None.
Proof.
  apply (update_with_no_row no_row_options
           (mkCategoryColumn (Some some_column) [])
           (mkValueColumn []) (mkValueColumn []) abc_drawn);
    [intro s; reflexivity | reflexivity ..].
Defined.

(* ------------------------------------------------------------------ *)
(** ** Rows without a value *)

Lemma apply_linear_undefined (sc : D3.Linear) :
  D3.apply_linear sc JS.Undefined = JS.NaN.
Proof.
  destruct sc as [[d0 d1] [r0 r1]].
  unfold D3.apply_linear, D3.uninterpolateNumber, D3.interpolateNumber.
  cbn [fst snd D3.lin_domain D3.lin_range JS.ToNumber].
  destruct d0 as [|d0], d1 as [|d1]; cbn [JS.sub JS.lift2];
    try (destruct r0, r1; reflexivity).
  destruct (d1 - d0 ?= 0)%Qc; destruct r0, r1; reflexivity.
Qed.

Lemma apply_linear_null (sc : D3.Linear) :
  D3.apply_linear sc JS.Null = D3.apply_linear sc (JS.Num (JS.Fin 0)).
Proof. reflexivity. Qed.

Lemma rect_of_point options s s' r :
  update options s = Normal tt s' ->
  In r (barGroup s') ->
  exists bm,
    barModel s' = Some bm /\
    In (rect_data r) (dataPoints bm) /\
    r = bar_attr (xScale options bm) (yScale options bm)
          (height (viewport options)) (append_rect (rect_data r)).
Proof.
  intros Hu Hr.
  destruct (update_returns_inv _ _ _ Hu) as (r0 & s1 & bm & lm & _ & Hb1 & Hl1 & ->).
  exists bm. cbn [drawn barModel]. split; [exact Hb1|].
  cbn [drawn barGroup] in Hr. rewrite draw_bars_closed in Hr.
  apply in_map_iff in Hr. destruct Hr as (d & <- & Hd).
  split; [exact Hd | reflexivity].
Qed.

(** X14: the bar of a row without a value.  When the point's value is
    [undefined] (the categories are longer than the bar values), the
    rect's y and height are NaN, whatever the scale.  When the value is
    [null] (a blank cell), it is drawn as a value of 0: for a viewport
    height and a maxValue that are numbers, y is viewportHeight -
    bottomPadding and the height is 0. *)
Theorem bar_of_missing_value options s s' r :
  update options s = Normal tt s' ->
  In r (barGroup s') ->
  (value (rect_data r) = JS.Undefined ->
   rect_y r = Some JS.NaN /\ rect_height r = Some JS.NaN) /\
  (forall bm h M,
      value (rect_data r) = JS.Null ->
      barModel s' = Some bm ->
      height (viewport options) = JS.Fin h ->
      maxValue bm = JS.Num (JS.Fin M) ->
      rect_y r =
        Some (JS.sub (height (viewport options)) (bottom (padding settings))) /\
      rect_height r = Some (JS.Fin 0)).
Proof.
  intros Hu Hr.
  destruct (rect_of_point _ _ _ _ Hu Hr) as (bm & Hbm & Hd & Er).
  split.
  - intro Hv. rewrite Er.
    cbn [bar_attr append_rect rect_data rect_y rect_height].
    rewrite Hv, apply_linear_undefined.
    destruct (height (viewport options)); split; reflexivity.
  - intros bm' h M Hv Hbm' Hh HM.
    rewrite Hbm in Hbm'. injection Hbm' as <-.
    rewrite Er. cbn [bar_attr append_rect rect_data rect_y rect_height].
    rewrite Hv, apply_linear_null.
    unfold yScale, D3.linear. rewrite HM, Hh.
    cbn [JS.ToNumber]. unfold settings. cbn [padding bottom top].
    unfold JS.of_Z. rewrite !Fin_sub, apply_linear_zero.
    split; [reflexivity|]. rewrite !Fin_sub. do 2 f_equal. ring.
Qed.

Lemma bar_of_missing_value_witness :
  (rect_y valueless_bar = Some JS.NaN /\
   rect_height valueless_bar = Some JS.NaN) /\
  (rect_y blank_bar =
     Some (JS.sub (height (viewport sparse_options)) (bottom (padding settings))) /\
   rect_height blank_bar = Some (JS.Fin 0)).
Proof.
  split.
  - apply (bar_of_missing_value sparse_options constructor sparse_drawn
             valueless_bar).
    + vm_compute. reflexivity.
    + vm_compute. right. right. left. reflexivity.
    + vm_compute. reflexivity.
  - apply (bar_of_missing_value sparse_options constructor sparse_drawn
             blank_bar ltac:(vm_compute; reflexivity)
             ltac:(vm_compute; left; reflexivity))
      with (bm := model ["A"; "B"; "C"]%string [JS.Null; n 4])
           (h := Q2Qc (inject_Z 300)) (M := Q2Qc (inject_Z 4)).
    + vm_compute. reflexivity.
    + vm_compute. reflexivity.
    + reflexivity.
    + vm_compute. reflexivity.
Defined.

(* ------------------------------------------------------------------ *)
(** ** Where the horizontal scale puts a category *)

Lemma index_in_unique (x : list (option string)) : forall seen c,
  In c x ->
  existsb (String.eqb (D3.key c)) seen = false ->
  exists i,
    D3.index (D3.key c) (D3.unique seen x) = Some i /\
    i < length (D3.unique seen x).
Proof.
  induction x as [|xi rest IH]; intros seen c Hin Hseen; [destruct Hin|].
  cbn [D3.unique].
  destruct (existsb (String.eqb (D3.key xi)) seen) eqn:Hxi.
  - destruct Hin as [->|Hin]; [congruence|]. now apply IH.
  - cbn [D3.index length].
    destruct (String.eqb (D3.key xi) (D3.key c)) eqn:Heq.
    + exists 0. split; [reflexivity | lia].
    + destruct Hin as [->|Hin]; [now rewrite String.eqb_refl in Heq|].
      destruct (IH (D3.key xi :: seen) c Hin) as (i & Hi & Hlt).
      * cbn [existsb]. rewrite String.eqb_sym, Heq. exact Hseen.
      * exists (S i). rewrite Hi. split; [reflexivity | lia].
Qed.

Lemma rangeRoundBands_lengths x x0 x1 p :
  length (D3.ord_range (D3.rangeRoundBands x x0 x1 p))
    = length (D3.ord_domain (D3.rangeRoundBands x x0 x1 p)).
Proof.
  unfold D3.rangeRoundBands. cbn [D3.ord_range D3.ord_domain].
  destruct (JS.ltb x1 x0); rewrite ?length_rev; unfold D3.steps;
    now rewrite length_map, length_seq.
Qed.

(** A category of the domain has a place on the scale. *)
Lemma apply_ordinal_in_domain x x0 x1 p c :
  In c x ->
  exists pos, D3.apply_ordinal (D3.rangeRoundBands x x0 x1 p) c = Some pos.
Proof.
  intro Hin.
  destruct (index_in_unique x [] c Hin eq_refl) as (i & Hi & Hlt).
  unfold D3.apply_ordinal.
  pose proof (rangeRoundBands_lengths x x0 x1 p) as Hlen.
  change (D3.ord_domain (D3.rangeRoundBands x x0 x1 p)) with (D3.unique [] x) in *.
  rewrite Hi.
  set (range := D3.ord_range (D3.rangeRoundBands x x0 x1 p)) in *.
  rewrite Nat.mod_small by lia.
  destruct (nth_error range i) eqn:E; [eauto|].
  apply nth_error_None in E. lia.
Qed.

(** X15: when [update] returns, every rect of the bar group has all of
    its attributes: in particular its x is never missing, since the
    horizontal scale's domain is made of the categories of the very
    points the rects are bound to. *)
Theorem every_bar_has_a_place options s s' r :
  update options s = Normal tt s' ->
  In r (barGroup s') ->
  rect_x r <> None /\
  rect_y r <> None /\
  rect_width r <> None /\
  rect_height r <> None /\
  rect_fill r <> None.
Proof.
  intros Hu Hr.
  destruct (rect_of_point _ _ _ _ Hu Hr) as (bm & Hbm & Hd & Er).
  rewrite Er. cbn [bar_attr append_rect rect_data rect_x rect_y rect_width
                     rect_height rect_fill].
  split; [|repeat split; discriminate].
  unfold xScale.
  destruct (apply_ordinal_in_domain (map category (dataPoints bm))
              (left (padding settings))
              (JS.sub (width (viewport options)) (right (padding settings)))
              barGap (category (rect_data r))) as (pos & E).
  - now apply in_map.
  - rewrite E. discriminate.
Qed.

Lemma every_bar_has_a_place_witness :
  rect_x valueless_bar <> None /\
  rect_y valueless_bar <> None /\
  rect_width valueless_bar <> None /\
  rect_height valueless_bar <> None /\
  rect_fill valueless_bar <> None.
Proof.
  apply (every_bar_has_a_place sparse_options constructor sparse_drawn
           valueless_bar).
  - vm_compute. reflexivity.
  - vm_compute. right. right. left. reflexivity.
Defined.

(* ------------------------------------------------------------------ *)
(** ** The line over the bars *)





(** With no more values than categories, every point has a category. *)
Lemma points_keep_cats (cats : list string) (vals : list JS.val) p :
  length vals <= length cats ->
  In p (points cats vals) ->
  exists c, category p = Some c /\ In c cats.
Proof.
  intros Hlen Hp. apply In_nth_error in Hp. destruct Hp as (i & Hi).
  assert (Hlt : i < length (points cats vals))
    by (apply nth_error_Some; congruence).
  rewrite points_length in Hlt.
  rewrite points_nth in Hi by exact Hlt. injection Hi as <-.
  cbn [category].
  destruct (nth_error cats i) as [c|] eqn:E.
  - exists c. split; [reflexivity|]. eapply nth_error_In. exact E.
  - apply nth_error_None in E. lia.
Qed.

Lemma index_off_domain (x : list (option string)) k : forall seen,
  (forall d, In d x -> D3.key d <> k) ->
  D3.index k (D3.unique seen x) = None.
Proof.
  induction x as [|xi rest IH]; intros seen Hk; [reflexivity|].
  cbn [D3.unique].
  destruct (existsb (String.eqb (D3.key xi)) seen).
  - apply IH. intros d Hd. apply Hk. now right.
  - cbn [D3.index].
    destruct (String.eqb_spec (D3.key xi) k) as [E|_].
    + exfalso. apply (Hk xi); [now left | exact E].
    + rewrite IH; [reflexivity|]. intros d Hd. apply Hk. now right.
Qed.

(** X17: when the line column is longer than the categories, the bar
    column is not, and no category is the string "undefined", a vertex
    of the line past the last category has no place on the horizontal
    scale: its x is NaN. *)
Theorem line_vertex_past_categories options c0 bar line s i :
  passes options ->
  category_column options = Some c0 ->
  value_column options 0 = Some bar ->
  value_column options 1 = Some line ->
  length (val_values bar) <= length (cat_values c0) ->
  ~ In "undefined"%string (cat_values c0) ->
  length (cat_values c0) <= i < length (val_values line) ->
  exists s' p pts xy,
    update options s = Normal tt s' /\
    lineGroup s' = remove_first (lineGroup s) ++ [p] /\
    path_d p = Some pts /\
    nth_error pts i = Some xy /\
    fst xy = JS.NaN.
Proof.
  intros H Hc Hb Hl Hlen Hno Hi.
  set (bm := model (cat_values c0) (val_values bar)).
  set (lm := model (cat_values c0) (val_values line)).
  assert (Hq : nth_error (dataPoints lm) i
               = Some (mkPoint None (at_index (val_values line) i))).
  { cbn [lm model dataPoints]. rewrite points_nth by lia.
    now rewrite (proj2 (nth_error_None (cat_values c0) i)) by lia. }
  assert (Hne : dataPoints lm <> []).
  { intro E. rewrite E in Hq. destruct i; discriminate Hq. }
  exists (drawn options bm lm (set_lineModel lm (set_barModel bm s))).
  exists (the_line options bm lm).
  exists (map (fun d =>
                 (plus (D3.apply_ordinal (xScale options bm) (category d)),
                  D3.apply_linear (yScale options lm) (value d)))
              (dataPoints lm)).
  exists (plus (D3.apply_ordinal (xScale options bm) None),
          D3.apply_linear (yScale options lm) (at_index (val_values line) i)).
  split; [apply (update_builds options c0 bar line); assumption|].
  split; [reflexivity|].
  split.
  { cbn [the_line path_d]. unfold D3.line.
    destruct (dataPoints lm) eqn:E; [contradiction | reflexivity]. }
  split.
  { rewrite nth_error_map, Hq. reflexivity. }
  cbn [fst]. unfold D3.apply_ordinal, xScale, D3.rangeRoundBands.
  cbn [D3.ord_domain].
  rewrite index_off_domain; [reflexivity|].
  intros d Hd. apply in_map_iff in Hd. destruct Hd as (p & <- & Hp).
  destruct (points_keep_cats (cat_values c0) (val_values bar) p Hlen Hp)
    as (c & Ec & Hin).
  rewrite Ec. cbn [D3.key]. intros ->. contradiction.
Qed.

Lemma line_vertex_past_categories_witness :
  exists s' p pts xy,
    update long_line_options constructor = Normal tt s' /\
    lineGroup s' = remove_first (lineGroup constructor) ++ [p] /\
    path_d p = Some pts /\
    nth_error pts 1 = Some xy /\
    fst xy = JS.NaN.
Proof.
  apply (line_vertex_past_categories long_line_options
           (mkCategoryColumn (Some some_column) ["A"]%string)
           (mkValueColumn [n 1]) (mkValueColumn [n 2; n 3]) constructor 1).
  - intro s. reflexivity.
  - reflexivity.
  - reflexivity.
  - reflexivity.
  - simpl. lia.
  - simpl. intros [H|[]]. discriminate H.
  - simpl. lia.
Defined.



(* ------------------------------------------------------------------ *)
(** ** A data view turned away after one was drawn *)

(** X19: on an instance a host can hold that has a line model (an
    earlier update ran to its end), an update whose data view the guard
    turns away does not throw: it keeps both stored models and draws
    them again, one rect for each point of the stored bar model and one
    path, at the new viewport size. *)
Theorem update_turned_away_redraws options s :
  reachable s ->
  lineModel s <> None ->
  something_missing options ->
  ~ empty_categories options ->
  exists s' bm,
    update options s = Normal tt s' /\
    barModel s = Some bm /\
    barModel s' = barModel s /\
    lineModel s' = lineModel s /\
    map rect_data (barGroup s') = dataPoints bm /\
    length (lineGroup s') = 1 /\
    svg s' = Some (width (viewport options), height (viewport options)).
Proof.
  intros Hs Hl Hm He.
  destruct (reachable_models_built s Hs) as (Hlb & _ & _).
  pose proof (reachable_one_line s Hs) as Hone.
  destruct (lineModel s) as [lm|] eqn:El; [|contradiction].
  destruct (barModel s) as [bm|] eqn:Eb; [|exfalso; apply Hlb; congruence].
  pose proof (setViewModel_after_guard options s) as Hg.
  destruct (invalid_cases options s)
    as [(He' & E)|[(He' & Hm' & E)|(He' & Hm' & E)]]; try contradiction.
  rewrite E in Hg.
  exists (drawn options bm lm s), bm.
  split; [now rewrite update_unfold, Hg, Eb, El|].
  split; [reflexivity|].
  cbn [drawn barModel lineModel barGroup svg].
  split; [exact Eb|]. split; [exact El|]. split; [|split].
  - rewrite draw_bars_closed, map_map. apply map_id.
  - now apply drawn_one_line.
  - reflexivity.
Qed.

Lemma update_turned_away_redraws_witness :
  exists s' bm,
    update no_categorical_options abc_drawn = Normal tt s' /\
    barModel abc_drawn = Some bm /\
    barModel s' = barModel abc_drawn /\
    lineModel s' = lineModel abc_drawn /\
    map rect_data (barGroup s') = dataPoints bm /\
    length (lineGroup s') = 1 /\
    svg s' = Some (width (viewport no_categorical_options),
                   height (viewport no_categorical_options)).
Proof.
  apply (update_turned_away_redraws no_categorical_options abc_drawn).
  - apply reach_update. apply reach_constructor.
  - vm_compute. discriminate.
  - simpl. right. exact I.
  - intros (view & Hv & Hc). simpl in Hv. discriminate Hv.
Defined.
